(** * Trader performance dashboard (app.py): data loading and aggregation

    A shallow embedding of the data-preparation pipeline of [app.py]:
    [load_data] (two CSV reads and a left join) followed by the filters,
    KPIs, group-by means, quantile bucketing, top-N selection and the
    sentiment x cluster pivot that feed the charts.

    The script is a sequence of pandas calls, so the embedding has two
    layers: module [Pandas] gives the pandas operations the script calls
    (semantics of pandas 1.5 - 2.x, the versions the script runs on), module
    [App] is the script itself, line by line, in a state-and-exception
    monad over a heap of data frames.

    Modelling conventions.
    - A float64 is an exact rational ([Q]); the not-a-number value is
      [None] of [float := option Q]. Rounding of binary floating point is
      not modelled.
    - A data frame is a header and a list of rows, each row a list of
      cells aligned with the header. Row labels (the index) are not
      modelled: every alignment in the script is between a frame and a
      series taken from that same frame, hence positional.
    - Frames are objects: they live in a heap and variables hold
      references, so that [df[col] = ...] is an update in place.
    - Widget and chart calls (streamlit, seaborn, matplotlib, altair) are
      outside the embedding. *)

From Stdlib Require Import String Ascii.
From Stdlib Require Import List Bool Arith ZArith QArith Qround.
From Stdlib Require Import Lia Lqa Permutation Sorted.
Import ListNotations.

Set Implicit Arguments.
Open Scope string_scope.
Open Scope nat_scope.
Open Scope list_scope.

(** ** Python exceptions raised along the pipeline *)

Inductive exn : Type :=
| FileNotFoundError (path : string)   (* read_csv: no such file *)
| ParserError (path : string)         (* read_csv: file is not a table *)
| KeyError (column : string)          (* a column label is absent *)
| TypeError (column : string)         (* arithmetic on a non-numeric column *)
| NameError (r : nat).                (* unbound reference; never raised by the script *)

Definition Exc (A : Type) : Type := (exn + A)%type.

Definition exc_bind {A B} (c : Exc A) (k : A -> Exc B) : Exc B :=
  match c with
  | inl e => inl e
  | inr a => k a
  end.

Fixpoint exc_map {A B} (f : A -> Exc B) (l : list A) : Exc (list B) :=
  match l with
  | [] => inr []
  | a :: l' =>
      exc_bind (f a) (fun b => exc_bind (exc_map f l') (fun bs => inr (b :: bs)))
  end.

(** ** The pandas operations used by the script *)

Module Pandas.

(** A float64: a rational, or NaN. *)
Definition float : Type := option Q.

(** A cell of a table. [NaN] is the missing value of every dtype. [Ivl] is
    a right-closed interval, the category values produced by [qcut]. *)
Inductive value : Type :=
| Str (s : string)
| Num (x : Q)
| Ivl (lo hi : Q)
| NaN.

Definition isna (v : value) : bool :=
  match v with
  | NaN => true
  | _ => false
  end.

(** Equality of cells as pandas' hash tables see it ([isin], [unique],
    join keys): numbers by value, and a missing value equals a missing
    value. *)
Definition value_eqb (a b : value) : bool :=
  match a, b with
  | Str s, Str t => String.eqb s t
  | Num x, Num y => Qeq_bool x y
  | Ivl l h, Ivl l' h' => Qeq_bool l l' && Qeq_bool h h'
  | NaN, NaN => true
  | _, _ => false
  end.

(** Order used to sort group keys. Within one CSV column the cells are all
    numbers or all strings; across kinds the order is fixed arbitrarily. *)
Definition value_leb (a b : value) : bool :=
  match a, b with
  | Num x, Num y => Qle_bool x y
  | Str s, Str t => String.leb s t
  | Ivl l h, Ivl l' h' => Qle_bool l l'
  | Num _, _ => true
  | _, Num _ => false
  | Str _, _ => true
  | _, Str _ => false
  | Ivl _ _, NaN => true
  | NaN, Ivl _ _ => false
  | NaN, NaN => true
  end.

Definition series : Type := list value.

Record DataFrame : Type := mkDataFrame {
  columns : list string;
  rows : list (list value);
  (* categorical columns and their categories, in category order *)
  categoricals : list (string * list value)
}.

Definition has_column (df : DataFrame) (c : string) : bool :=
  existsb (String.eqb c) (columns df).

(** Position of a label in a header. *)
Fixpoint index_of (c : string) (cols : list string) : nat :=
  match cols with
  | [] => 0
  | c' :: cols' => if String.eqb c c' then 0 else S (index_of c cols')
  end.

(** The cell of row [r] under column [c], for a header [cols]. *)
Definition cell (cols : list string) (r : list value) (c : string) : value :=
  nth (index_of c cols) r NaN.

(** [df[c]] *)
Definition getitem (df : DataFrame) (c : string) : Exc series :=
  if has_column df c
  then inr (map (fun r => cell (columns df) r c) (rows df))
  else inl (KeyError c).

(** [df[[c1; ...; cn]]]. pandas names every absent label in the message
    of its [KeyError]; the embedding keeps the first one. *)
Fixpoint first_missing (df : DataFrame) (cs : list string) : option string :=
  match cs with
  | [] => None
  | c :: cs' => if has_column df c then first_missing df cs' else Some c
  end.

Definition getitem_list (df : DataFrame) (cs : list string) : Exc DataFrame :=
  match first_missing df cs with
  | Some c => inl (KeyError c)
  | None =>
      inr {| columns := cs;
             rows := map (fun r => map (cell (columns df) r) cs) (rows df);
             categoricals :=
               filter (fun kc => existsb (String.eqb (fst kc)) cs) (categoricals df) |}
  end.

(** [s.isin(values)] *)
Definition isin (s : series) (values : list value) : list bool :=
  map (fun v => existsb (value_eqb v) values) s.

(** [s.unique()]: first occurrences, in order of appearance. *)
Fixpoint unique_by {A} (eqb : A -> A -> bool) (l : list A) (seen : list A) : list A :=
  match l with
  | [] => []
  | v :: l' =>
      if existsb (eqb v) seen then unique_by eqb l' seen
      else v :: unique_by eqb l' (v :: seen)
  end.

Definition unique (s : series) : series := unique_by value_eqb s [].

(** [df[mask]] for a boolean mask of the frame's length: the selected rows,
    in order, as a new frame. *)
Fixpoint select {A} (l : list A) (mask : list bool) : list A :=
  match l, mask with
  | a :: l', b :: mask' => if b then a :: select l' mask' else select l' mask'
  | _, _ => []
  end.

Definition getitem_mask (df : DataFrame) (mask : list bool) : DataFrame :=
  {| columns := columns df;
     rows := select (rows df) mask;
     categoricals := categoricals df |}.

(** Replace the element at position [i], or append when [i] is the length. *)
Fixpoint set_nth {A} (i : nat) (l : list A) (a : A) : list A :=
  match i, l with
  | _, [] => [a]
  | O, _ :: l' => a :: l'
  | S i', x :: l' => x :: set_nth i' l' a
  end.

Fixpoint set_cells (i : nat) (rs : list (list value)) (s : series) : list (list value) :=
  match rs, s with
  | r :: rs', v :: s' => set_nth i r v :: set_cells i rs' s'
  | _, _ => []
  end.

Definition set_assoc {A} (c : string) (a : option A) (l : list (string * A))
  : list (string * A) :=
  let l' := filter (fun kc => negb (String.eqb c (fst kc))) l in
  match a with
  | Some x => l' ++ [(c, x)]
  | None => l'
  end.

(** [df[c] = s] for a series of the frame's length, aligned positionally:
    an existing column is overwritten, a new one is appended on the right.
    [cats] is the list of categories when [s] is categorical. *)
Definition setitem (df : DataFrame) (c : string) (s : series)
    (cats : option (list value)) : DataFrame :=
  if has_column df c
  then {| columns := columns df;
          rows := set_cells (index_of c (columns df)) (rows df) s;
          categoricals := set_assoc c cats (categoricals df) |}
  else {| columns := columns df ++ [c];
          rows := set_cells (length (columns df)) (rows df) s;
          categoricals := set_assoc c cats (categoricals df) |}.


(** [left.merge(right, on=key, how='left')]. Every left row, in order, is
    extended with the non-key cells of each right row that has the same
    key, or with missing values when there is none. A non-key label carried
    by both sides gets the suffixes [_x] and [_y]. The frames joined by the
    script come straight from [read_csv] and hold no categorical column;
    their key columns are taken to be of one dtype (pandas refuses to join
    a string column with a numeric one). *)
Definition merge_left (left right : DataFrame) (key : string) : Exc DataFrame :=
  if negb (has_column left key) then inl (KeyError key)
  else if negb (has_column right key) then inl (KeyError key)
  else
    let others := filter (fun c => negb (String.eqb c key)) (columns right) in
    let lcols :=
      map (fun c => if existsb (String.eqb c) others then c ++ "_x" else c)%string
          (columns left) in
    let rcols :=
      map (fun c => if has_column left c then c ++ "_y" else c)%string others in
    let joined l :=
      match filter (fun r => value_eqb (cell (columns left) l key)
                                       (cell (columns right) r key)) (rows right) with
      | [] => [l ++ map (fun _ => NaN) others]
      | ms => map (fun r => l ++ map (cell (columns right) r) others) ms
      end in
    inr {| columns := lcols ++ rcols;
           rows := flat_map joined (rows left);
           categoricals := [] |}.

(** *** Numeric series

    Arithmetic on a column that holds a string raises. pandas raises
    [TypeError] from [mean], [qcut] and [nlargest]; from [sum] it would
    return the concatenated strings and the formatting of line 67 would
    raise instead. The embedding raises [TypeError] in every case. *)

Definition to_float (c : string) (v : value) : Exc float :=
  match v with
  | Num x => inr (Some x)
  | NaN => inr None
  | _ => inl (TypeError c)
  end.

Definition to_numeric (c : string) (s : series) : Exc (list float) :=
  exc_map (to_float c) s.

Definition dropna (l : list float) : list Q :=
  flat_map (fun x => match x with Some q => [q] | None => [] end) l.

Definition Qsum (l : list Q) : Q := fold_right Qplus 0%Q l.

(** [s.sum()]: missing values are skipped, the empty sum is 0. *)
Definition sum (l : list float) : Q := Qsum (dropna l).

(** [s.mean()]: missing values are skipped, the mean of nothing is NaN. *)
Definition mean (l : list float) : float :=
  match dropna l with
  | [] => None
  | ys => Some (Qsum ys / inject_Z (Z.of_nat (length ys)))%Q
  end.

(** [x * 100] on floats: NaN is absorbing. *)
Definition times100 (x : float) : float :=
  match x with
  | Some q => Some (q * 100)%Q
  | None => None
  end.

(** *** Stable sorting *)

Fixpoint insert_by {A} (leb : A -> A -> bool) (a : A) (l : list A) : list A :=
  match l with
  | [] => [a]
  | b :: l' => if leb a b then a :: l else b :: insert_by leb a l'
  end.

Fixpoint sort_by {A} (leb : A -> A -> bool) (l : list A) : list A :=
  match l with
  | [] => []
  | a :: l' => insert_by leb a (sort_by leb l')
  end.

(** *** Group-by *)

Fixpoint assoc {A} (c : string) (l : list (string * A)) : option A :=
  match l with
  | [] => None
  | (c', a) :: l' => if String.eqb c c' then Some a else assoc c l'
  end.

(** The group keys of [df.groupby(by)] ([sort=True], [dropna=True],
    [observed=False]): every category of a categorical column, otherwise
    the distinct non-missing cells in increasing order. *)
Definition group_keys (df : DataFrame) (by_ : string) (keys : series) : list value :=
  match assoc by_ (categoricals df) with
  | Some cats => cats
  | None => sort_by value_leb (unique (filter (fun v => negb (isna v)) keys))
  end.

(** [df.groupby(by)[col].mean()] *)
Definition groupby_mean (df : DataFrame) (by_ col : string)
  : Exc (list (value * float)) :=
  exc_bind (getitem df by_) (fun keys =>
  exc_bind (getitem df col) (fun vals =>
  exc_bind (to_numeric col vals) (fun nums =>
  inr (map (fun k => (k, mean (select nums (map (value_eqb k) keys))))
           (group_keys df by_ keys))))).

Definition is_numeric (v : value) : bool :=
  match v with
  | Num _ | NaN => true
  | _ => false
  end.

Definition float_of (v : value) : float :=
  match v with
  | Num x => Some x
  | _ => None
  end.

(** [df.groupby(by).mean(numeric_only=True)]: one row per group, one mean
    per numeric column other than the key. A column counts as numeric when
    it holds no string (the dtype [read_csv] infers). *)
Definition groupby_mean_numeric (df : DataFrame) (by_ : string)
  : Exc (list string * list (value * list float)) :=
  exc_bind (getitem df by_) (fun keys =>
  let cols :=
    filter (fun c => negb (String.eqb c by_) &&
                     forallb (fun r => is_numeric (cell (columns df) r c)) (rows df))
           (columns df) in
  inr (cols,
       map (fun k =>
              let grp := select (rows df) (map (value_eqb k) keys) in
              (k, map (fun c =>
                        mean (map (fun r => float_of (cell (columns df) r c)) grp))
                      cols))
           (group_keys df by_ keys))).

(** [df.groupby(by).apply(f).reset_index(drop=True)]: [f] applied to the
    sub-frame of each group, the results stacked in group order. *)
Definition groupby_apply (df : DataFrame) (by_ : string)
    (f : DataFrame -> Exc DataFrame) : Exc DataFrame :=
  exc_bind (getitem df by_) (fun keys =>
  exc_bind (exc_map (fun k => f (getitem_mask df (map (value_eqb k) keys)))
                    (group_keys df by_ keys)) (fun parts =>
  inr {| columns := columns df;
         rows := concat (map rows parts);
         categoricals := categoricals df |})).

(** *** nlargest *)

(** [a] comes no later than [b] when sorting in decreasing order, missing
    values last. *)
Definition desc_leb (a b : value) : bool :=
  match a, b with
  | Num x, Num y => Qle_bool y x
  | _, NaN => true
  | NaN, _ => false
  | _, _ => true
  end.

(** [df.nlargest(n, col)] ([keep='first']): the first [n] rows of the frame
    sorted by decreasing [col], equal values staying in their original
    order. *)
Definition nlargest (n : nat) (col : string) (df : DataFrame) : Exc DataFrame :=
  exc_bind (getitem df col) (fun vals =>
  exc_bind (to_numeric col vals) (fun _ =>
  inr {| columns := columns df;
         rows := firstn n (sort_by (fun r1 r2 => desc_leb (cell (columns df) r1 col)
                                                          (cell (columns df) r2 col))
                                   (rows df));
         categoricals := categoricals df |})).

(** *** qcut *)

(** [np.linspace(0, 1, q + 1)] *)
Definition linspace01 (q : nat) : list Q :=
  map (fun k => inject_Z (Z.of_nat k) / inject_Z (Z.of_nat q))%Q (seq 0 (S q)).

(** [Series.quantile(p)] with linear interpolation, on the sorted
    non-missing values: NaN when there is no value. *)
Definition quantile (sorted : list Q) (p : Q) : float :=
  match sorted with
  | [] => None
  | _ =>
      let idx := (p * inject_Z (Z.of_nat (length sorted - 1)))%Q in
      let lo := Z.to_nat (Qfloor idx) in
      let frac := (idx - inject_Z (Qfloor idx))%Q in
      let a := nth lo sorted 0%Q in
      let b := nth (S lo) sorted a in
      Some (a + (b - a) * frac)%Q
  end.

Definition float_eqb (a b : float) : bool :=
  match a, b with
  | Some x, Some y => Qeq_bool x y
  | None, None => true
  | _, _ => false
  end.

(** The bin edges of [qcut(s, q, duplicates='drop')]: the [q + 1]
    quantiles, with repeated edges removed. *)
Definition qcut_bins (xs : list float) (q : nat) : list float :=
  let bins := map (quantile (sort_by Qle_bool (dropna xs))) (linspace01 q) in
  let unique_bins := unique_by float_eqb bins [] in
  if (length unique_bins <? length bins) && negb (length bins =? 2)
  then unique_bins
  else bins.

(** [bins.searchsorted(x, side='left')]: the first position whose edge is
    not below [x]; a NaN edge counts as above everything. *)
Fixpoint searchsorted_left (bins : list float) (x : Q) : nat :=
  match bins with
  | [] => 0
  | Some b :: bins' => if Qle_bool x b then 0 else S (searchsorted_left bins' x)
  | None :: _ => 0
  end.

(** The bin of a value ([include_lowest=True]): [None] for a missing value
    and for a value that falls in no bin. *)
Definition bin_code (bins : list float) (x : float) : option nat :=
  match x with
  | None => None
  | Some v =>
      let id := searchsorted_left bins v in
      let id := if float_eqb (Some v) (nth 0 bins None) then 1 else id in
      if (id =? length bins) || (id =? 0) then None else Some (id - 1)
  end.

(** [IntervalIndex.from_breaks] *)
Fixpoint from_breaks (breaks : list Q) : list value :=
  match breaks with
  | a :: (b :: _) as tl => Ivl a b :: from_breaks tl
  | _ => []
  end.

(** The interval labels of the bins; the left end of the first one is
    lowered by [10^-3] so that it contains the minimum. NaN edges arise
    only when there is no value, and then give no interval. The rounding of
    the labels to [precision] digits is not modelled. *)
Definition format_labels (bins : list float) : list value :=
  match dropna bins with
  | [] => []
  | b0 :: rest => from_breaks ((b0 - (1 # 1000))%Q :: rest)
  end.

(** [pd.qcut(s, q, duplicates='drop')]: the categorical series and its
    categories. When a single edge is left (no value at all, or one
    distinct value) there is no interval: pandas returns a categorical
    without category whose entries are all missing, and does not raise. *)
Definition qcut (c : string) (s : series) (q : nat) : Exc (series * list value) :=
  exc_bind (to_numeric c s) (fun xs =>
  let bins := qcut_bins xs q in
  let labels := format_labels bins in
  inr (map (fun x => match bin_code bins x with
                     | Some i => nth i labels NaN
                     | None => NaN
                     end) xs,
       labels)).

(** *** pivot_table *)

Record Pivot : Type := mkPivot {
  p_index : list value;            (* row labels *)
  p_columns : list value;          (* column labels *)
  p_values : list (list float)     (* one list of cells per row label *)
}.

(** [df.pivot_table(index=i, columns=c, values=v, aggfunc='mean')]: rows
    are grouped by the pair of keys (missing keys dropped), the groups
    whose mean is NaN are dropped, and the remaining means are laid out
    with the sorted [i] keys as rows and the sorted [c] keys as columns;
    a cell without a group is NaN. *)
Definition pivot_table_mean (df : DataFrame) (i c v : string) : Exc Pivot :=
  exc_bind (getitem df v) (fun vals =>
  exc_bind (getitem df i) (fun ikeys =>
  exc_bind (getitem df c) (fun ckeys =>
  exc_bind (to_numeric v vals) (fun nums =>
  let pairs := combine ikeys ckeys in
  let agg a b :=
    mean (select nums
                 (map (fun p => value_eqb a (fst p) && value_eqb b (snd p)) pairs)) in
  let kept :=
    filter (fun p => negb (isna (fst p)) && negb (isna (snd p)) &&
                     match agg (fst p) (snd p) with Some _ => true | None => false end)
           pairs in
  let idx := sort_by value_leb (unique (map fst kept)) in
  let cols := sort_by value_leb (unique (map snd kept)) in
  inr {| p_index := idx;
         p_columns := cols;
         p_values := map (fun a => map (fun b => agg a b) cols) idx |})))).

(** [pivot * 100] *)
Definition pivot_times100 (p : Pivot) : Pivot :=
  {| p_index := p_index p;
     p_columns := p_columns p;
     p_values := map (map times100) (p_values p) |}.

Fixpoint find_index (v : value) (l : list value) : option nat :=
  match l with
  | [] => None
  | w :: l' =>
      if value_eqb v w then Some 0
      else match find_index v l' with
           | Some n => Some (S n)
           | None => None
           end
  end.

(** The cell at row label [a] and column label [b], if the table has
    both labels. *)
Definition pivot_at (p : Pivot) (a b : value) : option float :=
  match find_index a (p_index p), find_index b (p_columns p) with
  | Some n, Some m => Some (nth m (nth n (p_values p) []) None)
  | _, _ => None
  end.

End Pandas.

(** ** The script *)

Module App.
Import Pandas.

(** *** Heap of frames, exceptions *)

Definition ref : Type := nat.
Definition heap : Type := list DataFrame.

(** A computation reads and updates the heap and returns a value or raises.
    The heap reached is kept in both cases. *)
Definition M (A : Type) : Type := heap -> Exc A * heap.

Definition ret {A} (a : A) : M A := fun h => (inr a, h).

Definition bind {A B} (c : M A) (k : A -> M B) : M B :=
  fun h =>
    match c h with
    | (inl e, h') => (inl e, h')
    | (inr a, h') => k a h'
    end.

Notation "x <- c ;; k" := (bind c (fun x => k))
  (at level 61, c at next level, right associativity).
Notation "c ;; k" := (bind c (fun _ => k))
  (at level 61, right associativity).
Notation "' pat <- c ;; k" := (bind c (fun x => match x with pat => k end))
  (at level 61, pat pattern, c at next level, right associativity).

Definition lift {A} (c : Exc A) : M A := fun h => (c, h).

(** A new object: the next free reference. *)
Definition alloc (df : DataFrame) : M ref :=
  fun h => (inr (length h), h ++ [df]).

Definition deref (r : ref) : M DataFrame :=
  fun h =>
    match nth_error h r with
    | Some df => (inr df, h)
    | None => (inl (NameError r), h)
    end.

(** Update of the object behind a reference. *)
Definition assign (r : ref) (df : DataFrame) : M unit :=
  fun h =>
    if r <? length h
    then (inr tt, firstn r h ++ df :: skipn (S r) h)
    else (inl (NameError r), h).

(** *** pandas calls on references *)

(** [r[c]] *)
Definition col (r : ref) (c : string) : M series :=
  df <- deref r ;; lift (getitem df c).

(** [r[c]] as numbers, for [sum] and [mean] *)
Definition numeric_col (r : ref) (c : string) : M (list float) :=
  s <- col r c ;; lift (to_numeric c s).

(** [r[[c1; ...; cn]]]: a new frame *)
Definition cols (r : ref) (cs : list string) : M ref :=
  df <- deref r ;; sub <- lift (getitem_list df cs) ;; alloc sub.

(** [r[mask]]: boolean indexing copies the selected rows into a new frame *)
Definition mask (r : ref) (m : list bool) : M ref :=
  df <- deref r ;; alloc (getitem_mask df m).

(** [l.merge(r, on=key, how='left')]: a new frame *)
Definition merge (l r : ref) (key : string) : M ref :=
  dl <- deref l ;; dr <- deref r ;;
  j <- lift (merge_left dl dr key) ;; alloc j.

(** [r[c] = s]: the frame behind [r] is updated in place. On a frame
    obtained by boolean indexing pandas also prints a
    [SettingWithCopyWarning]; a warning is not an exception. *)
Definition set_col (r : ref) (c : string) (s : series) (cats : option (list value))
  : M unit :=
  df <- deref r ;; assign r (setitem df c s cats).

(** *** The two CSV files *)

Inductive file : Type :=
| Missing                      (* no such file *)
| Garbage                      (* present, not parseable as a table *)
| Csv (table : DataFrame).     (* the table [read_csv] returns *)

(** The views the script computes and hands to the widgets. *)
Record Views : Type := mkViews {
  sentiment_options : series;
  cluster_options : series;
  filtered_merged : DataFrame;     (* as displayed, before [size_bin] is added *)
  filtered_clusters : DataFrame;
  total_trades : nat;
  total_pnl : Q;
  overall_win_rate : float;
  win_rate : list (value * float);
  side_win : list (value * float);
  size_bin : series;
  size_win : list (value * float);
  cluster_summary : list string * list (value * list float);
  top_traders : DataFrame;
  heatmap_data : Pivot
}.

Definition scale (s : list (value * float)) : list (value * float) :=
  map (fun kv => (fst kv, times100 (snd kv))) s.

Section Script.

(** The files present when the process starts. *)
Variable fs : string -> file.

Definition read_csv (path : string) : M ref :=
  match fs path with
  | Missing => lift (inl (FileNotFoundError path))
  | Garbage => lift (inl (ParserError path))
  | Csv t => alloc t
  end.

(** Lines 25-29. The [st.cache_data] memoisation is not modelled: the
    script calls [load_data] once. *)
Definition load_data : M (ref * ref) :=
  merged <- read_csv "final_merged_dataset.csv" ;;
  trader_features <- read_csv "trader_clusters.csv" ;;
  sub <- cols trader_features ["account"; "cluster"] ;;
  merged <- merge merged sub "account" ;;
  ret (merged, trader_features).

(** Lines 38-170, for the two selections made in the sidebar. *)
Definition dashboard (merged trader_features : ref)
    (selected_sentiments selected_clusters : list value) : M Views :=
  (* 38 *)
  cls <- col merged "classification" ;;
  let sentiment_opts := unique cls in
  (* 45 *)
  cl <- col trader_features "cluster" ;;
  let cluster_opts := unique cl in
  (* 52 *)
  cls <- col merged "classification" ;;
  filtered_merged_ <- mask merged (isin cls selected_sentiments) ;;
  (* 53 *)
  cl <- col trader_features "cluster" ;;
  filtered_clusters_ <- mask trader_features (isin cl selected_clusters) ;;
  (* 61-63 *)
  fm <- deref filtered_merged_ ;;
  let trades := length (rows fm) in
  pnl <- numeric_col filtered_merged_ "closed_pnl" ;;
  win <- numeric_col filtered_merged_ "win" ;;
  (* 75, 77 *)
  shown_trades <- deref filtered_merged_ ;;
  shown_clusters <- deref filtered_clusters_ ;;
  (* 102 *)
  fm <- deref filtered_merged_ ;;
  by_sentiment <- lift (groupby_mean fm "classification" "win") ;;
  (* 109 *)
  fm <- deref filtered_merged_ ;;
  by_side <- lift (groupby_mean fm "side" "win") ;;
  (* 116 *)
  size <- col filtered_merged_ "size_usd" ;;
  binned <- lift (qcut "size_usd" size 4) ;;
  set_col filtered_merged_ "size_bin" (fst binned) (Some (snd binned)) ;;
  (* 117 *)
  fm <- deref filtered_merged_ ;;
  by_size <- lift (groupby_mean fm "size_bin" "win") ;;
  (* 157 *)
  fc <- deref filtered_clusters_ ;;
  summary <- lift (groupby_mean_numeric fc "cluster") ;;
  (* 161 *)
  tf <- deref trader_features ;;
  top <- lift (groupby_apply tf "cluster" (nlargest 5 "total_pnl")) ;;
  top_traders_ <- alloc top ;;
  (* 162 *)
  shown_top <- cols top_traders_
                 ["account"; "cluster"; "total_trades"; "win_rate"; "total_pnl"] ;;
  (* 168-170 *)
  mg <- deref merged ;;
  heat <- lift (pivot_table_mean mg "cluster" "classification" "win") ;;
  ret {| sentiment_options := sentiment_opts;
         cluster_options := cluster_opts;
         filtered_merged := shown_trades;
         filtered_clusters := shown_clusters;
         total_trades := trades;
         total_pnl := sum pnl;
         overall_win_rate := times100 (mean win);
         win_rate := scale by_sentiment;
         side_win := scale by_side;
         size_bin := fst binned;
         size_win := scale by_size;
         cluster_summary := summary;
         top_traders := top;
         heatmap_data := pivot_times100 heat |}.

(** The whole script, started on an empty heap. *)
Definition main (selected_sentiments selected_clusters : list value) : M Views :=
  ' (merged, trader_features) <- load_data ;;
  dashboard merged trader_features selected_sentiments selected_clusters.

End Script.

End App.

(** ** Vocabulary of the statements *)

Import Pandas App.

(** Every row is as wide as the header, as in a table read by [read_csv]. *)
Definition rectangular (df : DataFrame) : bool :=
  forallb (fun r => length r =? length (columns df)) (rows df).

(** Column [c] is present and holds numbers or missing values only. *)
Definition numeric_column (df : DataFrame) (c : string) : bool :=
  has_column df c &&
  forallb (fun r => is_numeric (cell (columns df) r c)) (rows df).

(** The [win] cell of a row is the number 0 or 1. *)
Definition win_flag (cols : list string) (r : list value) : bool :=
  match cell cols r "win" with
  | Num x => Qeq_bool x 0 || Qeq_bool x 1
  | _ => false
  end.

(** The [win] cell of a row is 1. *)
Definition is_win (cols : list string) (r : list value) : bool :=
  match cell cols r "win" with
  | Num x => Qeq_bool x 1
  | _ => false
  end.

(** Column [win] is present and holds the numbers 0 and 1 only. *)
Definition win_flags (df : DataFrame) : bool :=
  has_column df "win" && forallb (win_flag (columns df)) (rows df).

Definition no_categorical (df : DataFrame) : bool :=
  match categoricals df with
  | [] => true
  | _ => false
  end.

(** The joined trade table the dashboard expects (section 3 of the
    specification, Trade Record). *)
Definition trade_schema (mg : DataFrame) : bool :=
  rectangular mg && no_categorical mg &&
  has_column mg "classification" && has_column mg "side" &&
  has_column mg "cluster" &&
  numeric_column mg "closed_pnl" && numeric_column mg "win" &&
  numeric_column mg "size_usd".

(** The trader-profile table the dashboard expects (Trader Profile). *)
Definition profile_schema (tf : DataFrame) : bool :=
  rectangular tf && no_categorical tf &&
  has_column tf "account" && has_column tf "cluster" &&
  has_column tf "total_trades" && has_column tf "win_rate" &&
  numeric_column tf "total_pnl".

(** The selection [df[df[c].isin(values)]], written on rows. *)
Definition rows_in (df : DataFrame) (c : string) (values : list value)
  : list (list value) :=
  filter (fun r => existsb (value_eqb (cell (columns df) r c)) values) (rows df).

(** What a completed run of [dashboard] on the tables [mg] and [tf]
    has computed: every pandas call returned, [v] collects the results and
    [new] lists the frames created, in allocation order. *)
Definition dashboard_trace (mg tf : DataFrame) (S C : list value)
    (v : Views) (new : list DataFrame) : Prop :=
  exists cls cl pnl_s pnl win_s win by_sentiment by_side size binned by_size
         summary top shown heat,
    let fm := getitem_mask mg (isin cls S) in
    let fc := getitem_mask tf (isin cl C) in
    let fm' := setitem fm "size_bin" (fst binned) (Some (snd binned)) in
    getitem mg "classification" = inr cls /\
    getitem tf "cluster" = inr cl /\
    getitem fm "closed_pnl" = inr pnl_s /\
    to_numeric "closed_pnl" pnl_s = inr pnl /\
    getitem fm "win" = inr win_s /\
    to_numeric "win" win_s = inr win /\
    groupby_mean fm "classification" "win" = inr by_sentiment /\
    groupby_mean fm "side" "win" = inr by_side /\
    getitem fm "size_usd" = inr size /\
    qcut "size_usd" size 4 = inr binned /\
    groupby_mean fm' "size_bin" "win" = inr by_size /\
    groupby_mean_numeric fc "cluster" = inr summary /\
    groupby_apply tf "cluster" (nlargest 5 "total_pnl") = inr top /\
    getitem_list top ["account"; "cluster"; "total_trades"; "win_rate"; "total_pnl"]
      = inr shown /\
    pivot_table_mean mg "cluster" "classification" "win" = inr heat /\
    v = {| sentiment_options := unique cls;
           cluster_options := unique cl;
           filtered_merged := fm;
           filtered_clusters := fc;
           total_trades := length (rows fm);
           total_pnl := sum pnl;
           overall_win_rate := times100 (mean win);
           win_rate := scale by_sentiment;
           side_win := scale by_side;
           size_bin := fst binned;
           size_win := scale by_size;
           cluster_summary := summary;
           top_traders := top;
           heatmap_data := pivot_times100 heat |} /\
    new = [fm'; fc; top; shown].




(** The rows of [df] whose cells under [i] and [c] are [a] and [b]. *)
Definition group_rows (df : DataFrame) (i c : string) (a b : value)
  : list (list value) :=
  filter (fun r => value_eqb a (cell (columns df) r i) &&
                   value_eqb b (cell (columns df) r c)) (rows df).

(** The mean of column [v] over the rows of a group, NaN for a group
    without (non-missing) value. *)
Definition group_mean (df : DataFrame) (i c v : string) (a b : value) : float :=
  mean (map (fun r => float_of (cell (columns df) r v)) (group_rows df i c a b)).

(** The rows that give a cell to the pivot of [v] by [i] and [c]: both keys
    present and a mean that is a number. *)
Definition pivot_rows (df : DataFrame) (i c v : string) : list (list value) :=
  filter (fun r => negb (isna (cell (columns df) r i)) &&
                   negb (isna (cell (columns df) r c)) &&
                   match group_mean df i c v (cell (columns df) r i)
                                             (cell (columns df) r c) with
                   | Some _ => true
                   | None => false
                   end) (rows df).

(** The table without the rows whose [cluster] is missing. *)
Definition matched_only (df : DataFrame) : DataFrame :=
  {| columns := columns df;
     rows := filter (fun r => negb (isna (cell (columns df) r "cluster"))) (rows df);
     categoricals := categoricals df |}.

(** Row [r1] comes no later than [r2] by decreasing [total_pnl]. *)
Definition pnl_desc (cols : list string) (r1 r2 : list value) : bool :=
  desc_leb (cell cols r1 "total_pnl") (cell cols r2 "total_pnl").

(** The [total_pnl] of row [r] is [x]. *)
Definition same_pnl (cols : list string) (x : value) (r : list value) : bool :=
  value_eqb x (cell cols r "total_pnl").

(** The traders of cluster [k], in table order. *)
Definition cluster_rows (tf : DataFrame) (k : value) : list (list value) :=
  filter (fun r => value_eqb k (cell (columns tf) r "cluster")) (rows tf).




(** The rows of [df] whose cell under [c] is [k], in table order. *)
Definition rows_with (df : DataFrame) (c : string) (k : value)
  : list (list value) :=
  filter (fun r => value_eqb k (cell (columns df) r c)) (rows df).

(** 100 times the share of winning rows among [rs]. *)
Definition win_share (cols : list string) (rs : list (list value)) : Q :=
  (inject_Z (Z.of_nat (length (filter (is_win cols) rs)))
   / inject_Z (Z.of_nat (length rs)) * 100)%Q.

(** The rows of [rs] whose label in the aligned series [labels] is [k]. *)
Definition labelled (rs : list (list value)) (labels : series) (k : value)
  : list (list value) :=
  map fst (filter (fun p => value_eqb k (snd p)) (combine rs labels)).

(** The number of rows of [df] whose [win] flag is set. *)
Definition win_count (df : DataFrame) : nat :=
  length (filter (is_win (columns df)) (rows df)).

(** *** A small data set

    The example scenario of the specification (section 8), with two more
    trades; the last one comes from an account without profile. *)

Definition ex_trades : DataFrame :=
  {| columns := ["account"; "side"; "size_usd"; "closed_pnl"; "win"; "classification"];
     rows := [[Str "A"; Str "buy"; Num 50; Num 100; Num 1; Str "Fear"];
              [Str "B"; Str "sell"; Num 80; Num (-20); Num 0; Str "Greed"];
              [Str "A"; Str "sell"; Num 120; Num 30; Num 1; Str "Greed"];
              [Str "Z"; Str "buy"; Num 200; Num (-5); Num 0; Str "Fear"]];
     categoricals := [] |}.

Definition ex_profiles : DataFrame :=
  {| columns := ["account"; "cluster"; "total_trades"; "win_rate"; "total_pnl"];
     rows := [[Str "A"; Num 0; Num 10; Num 60; Num 500];
              [Str "B"; Num 1; Num 5; Num 30; Num (-200)]];
     categoricals := [] |}.

Definition ex_fs (path : string) : file :=
  if String.eqb path "final_merged_dataset.csv" then Csv ex_trades
  else if String.eqb path "trader_clusters.csv" then Csv ex_profiles
  else Missing.

(** A trade file with none of [classification], [closed_pnl], [win],
    [size_usd]. *)
Definition ex_bare_trades : DataFrame :=
  {| columns := ["account"; "side"];
     rows := [[Str "A"; Str "buy"]; [Str "B"; Str "sell"]];
     categoricals := [] |}.

Definition ex_bare_fs (path : string) : file :=
  if String.eqb path "final_merged_dataset.csv" then Csv ex_bare_trades
  else if String.eqb path "trader_clusters.csv" then Csv ex_profiles
  else Missing.


(** The table [load_data] returns for the trade file without the dashboard
    columns. *)
Definition ex_bare_merged : DataFrame :=
  {| columns := ["account"; "side"; "cluster"];
     rows := [[Str "A"; Str "buy"; Num 0]; [Str "B"; Str "sell"; Num 1]];
     categoricals := [] |}.


(** The joined trade table of the example. *)
Definition ex_merged : DataFrame :=
  {| columns := ["account"; "side"; "size_usd"; "closed_pnl"; "win"; "classification";
                 "cluster"];
     rows := [[Str "A"; Str "buy"; Num 50; Num 100; Num 1; Str "Fear"; Num 0];
              [Str "B"; Str "sell"; Num 80; Num (-20); Num 0; Str "Greed"; Num 1];
              [Str "A"; Str "sell"; Num 120; Num 30; Num 1; Str "Greed"; Num 0];
              [Str "Z"; Str "buy"; Num 200; Num (-5); Num 0; Str "Fear"; NaN]];
     categoricals := [] |}.

(** Frame property of a computation: run on any heap that extends [h0],
    it leaves the objects of [h0] as they are (new objects come after
    them), and its result, if any, satisfies [post]. *)
Definition keeps {A} (h0 : heap) (c : M A) (post : A -> Prop) : Prop :=
  forall l, exists l',
    snd (c (h0 ++ l)) = h0 ++ l' /\
    match fst (c (h0 ++ l)) with
    | inr a => post a
    | inl _ => True
    end.

(** ** The heap monad: stepping lemmas *)

Unset Implicit Arguments.

Section Steps.

Variables A B : Type.

Lemma bind_assoc C (c : M A) (k1 : A -> M B) (k2 : B -> M C) h :
  bind (bind c k1) k2 h = bind c (fun a => bind (k1 a) k2) h.
Proof. unfold bind. destruct (c h) as [[e|a] h1]; reflexivity. Qed.

Lemma bind_ret (a : A) (k : A -> M B) h : bind (ret a) k h = k a h.
Proof. reflexivity. Qed.

Lemma bind_lift (c : Exc A) (k : A -> M B) h :
  bind (lift c) k h = match c with
                      | inl e => (inl e, h)
                      | inr a => k a h
                      end.
Proof. unfold bind, lift. destruct c; reflexivity. Qed.

Lemma bind_alloc df (k : ref -> M B) h l :
  bind (alloc df) k (h ++ l) = k (length h + length l) (h ++ l ++ [df]).
Proof. unfold bind, alloc. now rewrite length_app, app_assoc. Qed.

Lemma bind_deref_old r df (k : DataFrame -> M B) h l :
  nth_error h r = Some df ->
  bind (deref r) k (h ++ l) = k df (h ++ l).
Proof.
  intros H. unfold bind, deref.
  rewrite nth_error_app1, H; [reflexivity|].
  apply nth_error_Some. congruence.
Qed.

Lemma bind_deref_new i df (k : DataFrame -> M B) h l :
  nth_error l i = Some df ->
  bind (deref (length h + i)) k (h ++ l) = k df (h ++ l).
Proof.
  intros H. unfold bind, deref.
  rewrite nth_error_app2 by lia.
  replace (length h + i - length h) with i by lia.
  now rewrite H.
Qed.

Lemma bind_assign_new i df (k : unit -> M B) h l :
  i < length l ->
  bind (assign (length h + i) df) k (h ++ l)
  = k tt (h ++ firstn i l ++ df :: skipn (S i) l).
Proof.
  intros H. unfold bind, assign.
  rewrite length_app.
  destruct (Nat.ltb_spec (length h + i) (length h + length l)); [|lia].
  f_equal.
  rewrite firstn_app, firstn_all2 by lia.
  replace (length h + i - length h) with i by lia.
  replace (S (length h + i)) with (length h + S i) by lia.
  rewrite skipn_app, skipn_all2 by lia.
  replace (length h + S i - length h) with (S i) by lia.
  now rewrite <- app_assoc.
Qed.

End Steps.

(** Symbolic execution of a computation applied to a heap [h ++ l]. *)
Ltac heap_norm := cbn [length Datatypes.app nth_error firstn skipn Nat.add].

Ltac step :=
  first
    [ rewrite bind_assoc
    | rewrite bind_ret
    | rewrite bind_alloc; heap_norm
    | erewrite bind_deref_old by eassumption
    | erewrite bind_deref_new by (heap_norm; reflexivity); heap_norm
    | erewrite bind_assign_new by (heap_norm; lia); heap_norm ].

(** A completed run of [dashboard] went through every call. *)
Lemma dashboard_inv h m t mg tf S C v h' :
  nth_error h m = Some mg -> nth_error h t = Some tf ->
  dashboard m t S C h = (inr v, h') ->
  exists new, h' = h ++ new /\ dashboard_trace mg tf S C v new.
Proof.
  intros Hm Ht. rewrite <- (app_nil_r h) at 1.
  unfold dashboard, numeric_col, col, mask, cols, set_col.
  repeat step.
  rewrite bind_lift. destruct (getitem mg "classification") as [e|cls] eqn:E1;
    [discriminate|].
  repeat step.
  rewrite bind_lift. destruct (getitem tf "cluster") as [e|cl] eqn:E2;
    [discriminate|].
  repeat step. rewrite bind_lift, E1.
  repeat step. rewrite bind_lift, E2.
  repeat step.
  set (fm := getitem_mask mg (isin cls S)).
  set (fc := getitem_mask tf (isin cl C)).
  rewrite bind_lift. destruct (getitem fm "closed_pnl") as [e|pnl_s] eqn:E3;
    [discriminate|].
  rewrite bind_lift. destruct (to_numeric "closed_pnl" pnl_s) as [e|pnl] eqn:E4;
    [discriminate|].
  repeat step.
  rewrite bind_lift. destruct (getitem fm "win") as [e|win_s] eqn:E5;
    [discriminate|].
  rewrite bind_lift. destruct (to_numeric "win" win_s) as [e|win] eqn:E6;
    [discriminate|].
  repeat step.
  rewrite bind_lift.
  destruct (groupby_mean fm "classification" "win") as [e|by_sentiment] eqn:E7;
    [discriminate|].
  repeat step.
  rewrite bind_lift.
  destruct (groupby_mean fm "side" "win") as [e|by_side] eqn:E8;
    [discriminate|].
  repeat step.
  rewrite bind_lift. destruct (getitem fm "size_usd") as [e|size] eqn:E9;
    [discriminate|].
  rewrite bind_lift. destruct (qcut "size_usd" size 4) as [e|binned] eqn:E10;
    [discriminate|].
  repeat step.
  set (fm' := setitem fm "size_bin" (fst binned) (Some (snd binned))).
  rewrite bind_lift.
  destruct (groupby_mean fm' "size_bin" "win") as [e|by_size] eqn:E11;
    [discriminate|].
  repeat step.
  rewrite bind_lift.
  destruct (groupby_mean_numeric fc "cluster") as [e|summary] eqn:E12;
    [discriminate|].
  repeat step.
  rewrite bind_lift.
  destruct (groupby_apply tf "cluster" (nlargest 5 "total_pnl")) as [e|top] eqn:E13;
    [discriminate|].
  repeat step.
  rewrite bind_lift.
  destruct (getitem_list top _) as [e|shown] eqn:E14; [discriminate|].
  repeat step.
  rewrite bind_lift.
  destruct (pivot_table_mean mg "cluster" "classification" "win") as [e|heat] eqn:E15;
    [discriminate|].
  unfold ret. intros X. injection X as Hv Hh.
  exists [fm'; fc; top; shown]. split; [now symmetry|].
  exists cls, cl, pnl_s, pnl, win_s, win, by_sentiment, by_side, size, binned,
    by_size, summary, top, shown, heat.
  cbv zeta. fold fm fc fm'. subst v.
  repeat (split; [assumption|]). split; reflexivity.
Qed.

(** ** Basic facts on the pandas operations *)

Lemma getitem_ok df c :
  has_column df c = true ->
  getitem df c = inr (map (fun r => cell (columns df) r c) (rows df)).
Proof. unfold getitem. now intros ->. Qed.

Lemma getitem_inr df c s :
  getitem df c = inr s ->
  has_column df c = true /\ s = map (fun r => cell (columns df) r c) (rows df).
Proof.
  unfold getitem. destruct (has_column df c); [|discriminate].
  intros H. injection H as <-. now split.
Qed.

Lemma getitem_inl df c e :
  getitem df c = inl e -> has_column df c = false /\ e = KeyError c.
Proof.
  unfold getitem. destruct (has_column df c); [discriminate|].
  intros H. injection H as <-. now split.
Qed.

Lemma to_numeric_ok c s :
  forallb is_numeric s = true -> to_numeric c s = inr (map float_of s).
Proof.
  unfold to_numeric. induction s as [|v s IH]; [reflexivity|].
  cbn [forallb exc_map map]. intros H. apply andb_true_iff in H as [Hv Hs].
  rewrite (IH Hs). destruct v; try discriminate; reflexivity.
Qed.

Lemma to_numeric_inr c s xs :
  to_numeric c s = inr xs -> forallb is_numeric s = true /\ xs = map float_of s.
Proof.
  unfold to_numeric. revert xs. induction s as [|v s IH]; intros xs.
  - cbn. intros H. injection H as <-. now split.
  - cbn [exc_map]. destruct (to_float c v) as [e|x] eqn:Ev; [discriminate|].
    cbn [exc_bind]. destruct (exc_map (to_float c) s) as [e|ys]; [discriminate|].
    cbn [exc_bind]. intros H. injection H as <-.
    destruct (IH ys eq_refl) as [Hs ->].
    destruct v; try discriminate; cbn in Ev; injection Ev as <-;
      cbn [forallb map is_numeric float_of andb]; now split.
Qed.

Lemma forallb_map_comp {X Y} (p : Y -> bool) (f : X -> Y) l :
  forallb p (map f l) = forallb (fun x => p (f x)) l.
Proof. induction l as [|x l IH]; [reflexivity|]. cbn. now rewrite IH. Qed.

Lemma forallb_select {X} (p : X -> bool) l m :
  forallb p l = true -> forallb p (select l m) = true.
Proof.
  revert m. induction l as [|x l IH]; intros [|b m]; try reflexivity.
  cbn [forallb select]. intros H. apply andb_true_iff in H as [Hx Hl].
  destruct b; cbn [forallb]; rewrite ?Hx; now apply IH.
Qed.

Lemma select_In {X} (l : list X) m x : In x (select l m) -> In x l.
Proof.
  revert m. induction l as [|y l IH]; intros [|b m]; cbn; try tauto.
  destruct b; cbn; intros H; [destruct H|]; eauto.
Qed.

(** Boolean indexing with the mask of a predicate is [filter]. *)
Lemma select_map_filter {X} (p : X -> bool) (l : list X) :
  select l (map p l) = filter p l.
Proof.
  induction l as [|x l IH]; [reflexivity|].
  cbn. destruct (p x); now rewrite IH.
Qed.

Lemma select_map {X Y} (f : X -> Y) (l : list X) m :
  select (map f l) m = map f (select l m).
Proof.
  revert m. induction l as [|x l IH]; intros [|b m]; try reflexivity.
  cbn. destruct b; cbn; now rewrite IH.
Qed.

Lemma numeric_column_mask df c m :
  numeric_column df c = true -> numeric_column (getitem_mask df m) c = true.
Proof.
  unfold numeric_column, has_column. cbn [columns rows getitem_mask].
  intros H. apply andb_true_iff in H as [-> H]. now apply forallb_select.
Qed.

Lemma numeric_col_ok df c :
  numeric_column df c = true ->
  getitem df c = inr (map (fun r => cell (columns df) r c) (rows df)) /\
  to_numeric c (map (fun r => cell (columns df) r c) (rows df))
  = inr (map (fun r => float_of (cell (columns df) r c)) (rows df)).
Proof.
  unfold numeric_column. intros H. apply andb_true_iff in H as [Hc Hn].
  split; [now apply getitem_ok|].
  rewrite to_numeric_ok, map_map; [reflexivity|].
  now rewrite forallb_map_comp.
Qed.

Lemma groupby_mean_ok df by_ c :
  has_column df by_ = true -> numeric_column df c = true ->
  exists r, groupby_mean df by_ c = inr r.
Proof.
  intros Hb Hc. destruct (numeric_col_ok _ _ Hc) as [Hg Hn].
  unfold groupby_mean. rewrite (getitem_ok _ _ Hb), Hg. cbn [exc_bind].
  rewrite Hn. cbn [exc_bind]. eauto.
Qed.

Lemma qcut_ok c s :
  forallb is_numeric s = true -> exists r, qcut c s 4 = inr r.
Proof.
  intros H. unfold qcut. rewrite (to_numeric_ok _ _ H). cbn [exc_bind]. eauto.
Qed.

Lemma exc_map_ok {X Y} (f : X -> Exc Y) l :
  (forall x, In x l -> exists y, f x = inr y) -> exists ys, exc_map f l = inr ys.
Proof.
  induction l as [|x l IH]; intros H; [now exists []|].
  destruct (H x (or_introl eq_refl)) as [y Hy].
  destruct IH as [ys Hys]; [intros; apply H; now right|].
  exists (y :: ys). cbn. now rewrite Hy, Hys.
Qed.

Lemma nlargest_ok n c df :
  numeric_column df c = true -> exists r, nlargest n c df = inr r.
Proof.
  intros Hc. destruct (numeric_col_ok _ _ Hc) as [Hg Hn].
  unfold nlargest. rewrite Hg. cbn [exc_bind]. rewrite Hn. cbn [exc_bind]. eauto.
Qed.

Lemma pivot_table_mean_ok df i c v :
  has_column df i = true -> has_column df c = true -> numeric_column df v = true ->
  exists p, pivot_table_mean df i c v = inr p.
Proof.
  intros Hi Hc Hv. destruct (numeric_col_ok _ _ Hv) as [Hg Hn].
  unfold pivot_table_mean.
  rewrite Hg, (getitem_ok _ _ Hi), (getitem_ok _ _ Hc). cbn [exc_bind].
  rewrite Hn. cbn [exc_bind]. eauto.
Qed.

(** *** Column assignment *)

Lemma index_of_lt c cols :
  existsb (String.eqb c) cols = true -> index_of c cols < length cols.
Proof.
  induction cols as [|x cols IH]; [discriminate|].
  cbn. destruct (String.eqb c x); cbn; [lia|]. intros H. apply IH in H. lia.
Qed.

Lemma index_of_app c cols extra :
  existsb (String.eqb c) cols = true ->
  index_of c (cols ++ extra) = index_of c cols.
Proof.
  induction cols as [|x cols IH]; [discriminate|].
  cbn. destruct (String.eqb c x); cbn; [reflexivity|]. intros H. now rewrite IH.
Qed.

Lemma index_of_absent c cols :
  existsb (String.eqb c) cols = false -> index_of c cols = length cols.
Proof.
  induction cols as [|x cols IH]; [reflexivity|].
  cbn. destruct (String.eqb c x); cbn; [discriminate|]. intros H. now rewrite IH.
Qed.

Lemma index_of_inj c c' cols :
  existsb (String.eqb c) cols = true ->
  index_of c cols = index_of c' cols -> c = c'.
Proof.
  induction cols as [|x cols IH]; [discriminate|].
  cbn. destruct (String.eqb_spec c x) as [->|Hc];
    destruct (String.eqb_spec c' x) as [->|Hc']; cbn; try congruence; try discriminate.
  intros H E. apply IH; [assumption|congruence].
Qed.

Lemma nth_set_nth_other {X} i j (l : list X) a d :
  j <> i -> j < length l -> nth j (set_nth i l a) d = nth j l d.
Proof.
  revert i j. induction l as [|x l IH]; intros i j Hij Hj; [cbn in Hj; lia|].
  destruct i, j; cbn in *; try reflexivity; try lia.
  apply IH; lia.
Qed.

Lemma nth_set_nth_same {X} i (l : list X) a d :
  i <= length l -> nth i (set_nth i l a) d = a.
Proof.
  revert i. induction l as [|x l IH]; intros i Hi.
  - cbn in Hi. assert (E : i = 0) by lia. now rewrite E.
  - destruct i; cbn in *; [reflexivity|]. apply IH. lia.
Qed.

Lemma has_column_setitem_same df c s cats :
  has_column (setitem df c s cats) c = true.
Proof.
  unfold setitem. destruct (has_column df c) eqn:E; [exact E|].
  unfold has_column. cbn [columns]. rewrite existsb_app. cbn.
  rewrite String.eqb_refl. now rewrite orb_true_r.
Qed.

Lemma has_column_setitem_other df c s cats c' :
  has_column df c' = true -> has_column (setitem df c s cats) c' = true.
Proof.
  unfold setitem. destruct (has_column df c) eqn:E; [trivial|].
  unfold has_column. cbn [columns]. rewrite existsb_app. now intros ->.
Qed.

(** Assigning column [c] leaves the cells of the other columns alone. *)
Lemma cell_setitem_other df c s cats r v c' :
  length r = length (columns df) ->
  has_column df c' = true -> c' <> c ->
  cell (columns (setitem df c s cats))
       (set_nth (if has_column df c then index_of c (columns df)
                 else length (columns df)) r v) c'
  = cell (columns df) r c'.
Proof.
  intros Hr Hc' Hne. unfold cell, setitem.
  pose proof (index_of_lt _ _ Hc') as Hlt.
  destruct (has_column df c) eqn:E; cbn [columns].
  - apply nth_set_nth_other; [|lia].
    intros Heq. apply Hne. now apply (index_of_inj _ _ _ Hc').
  - rewrite index_of_app by exact Hc'.
    apply nth_set_nth_other; lia.
Qed.

Lemma rows_setitem df c s cats :
  rows (setitem df c s cats)
  = set_cells (if has_column df c then index_of c (columns df)
               else length (columns df)) (rows df) s.
Proof. unfold setitem. now destruct (has_column df c). Qed.

Lemma forallb_set_cells (p p' : list value -> bool) i rs s :
  (forall r v, In r rs -> p r = true -> p' (set_nth i r v) = true) ->
  forallb p rs = true -> forallb p' (set_cells i rs s) = true.
Proof.
  revert s. induction rs as [|r rs IH]; intros [|v s] H Hp; try reflexivity.
  cbn [forallb set_cells] in *. apply andb_true_iff in Hp as [Hr Hrs].
  rewrite (H r v (or_introl eq_refl) Hr). cbn.
  apply IH; [|assumption]. intros; apply H; [now right|assumption].
Qed.

Lemma numeric_column_setitem df c s cats c' :
  rectangular df = true -> c' <> c ->
  numeric_column df c' = true ->
  numeric_column (setitem df c s cats) c' = true.
Proof.
  intros Hrect Hne H. unfold numeric_column in *.
  apply andb_true_iff in H as [Hc' Hn].
  rewrite (has_column_setitem_other _ c s cats _ Hc'). cbn [andb].
  rewrite rows_setitem.
  unfold rectangular in Hrect. rewrite forallb_forall in Hrect.
  rewrite forallb_forall in Hn.
  apply forallb_set_cells with (p := fun r => is_numeric (cell (columns df) r c')).
  - intros r v Hin Hr. rewrite cell_setitem_other; try assumption.
    apply Nat.eqb_eq. now apply Hrect.
  - apply forallb_forall. exact Hn.
Qed.

Lemma rectangular_mask df m :
  rectangular df = true -> rectangular (getitem_mask df m) = true.
Proof. unfold rectangular. cbn [columns rows getitem_mask]. apply forallb_select. Qed.

(** ** The dashboard never raises on well-formed tables *)

Ltac split_andb :=
  repeat match goal with
         | H : _ && _ = true |- _ => apply andb_true_iff in H as [? ?]
         end.

Lemma first_missing_none df cs :
  forallb (has_column df) cs = true -> first_missing df cs = None.
Proof.
  induction cs as [|c cs IH]; [reflexivity|].
  cbn. intros H. apply andb_true_iff in H as [-> H]. now apply IH.
Qed.

Lemma numeric_has_column df c : numeric_column df c = true -> has_column df c = true.
Proof. unfold numeric_column. intros H. now apply andb_true_iff in H as [-> _]. Qed.

Lemma groupby_apply_nlargest_ok tf :
  has_column tf "cluster" = true -> numeric_column tf "total_pnl" = true ->
  exists top, groupby_apply tf "cluster" (nlargest 5 "total_pnl") = inr top /\
              columns top = columns tf.
Proof.
  intros Hc Hn. unfold groupby_apply. rewrite (getitem_ok _ _ Hc). cbn [exc_bind].
  destruct (exc_map_ok
              (fun k => nlargest 5 "total_pnl"
                 (getitem_mask tf (map (value_eqb k)
                    (map (fun r => cell (columns tf) r "cluster") (rows tf)))))
              (group_keys tf "cluster"
                 (map (fun r => cell (columns tf) r "cluster") (rows tf))))
    as [parts Hp].
  - intros k _. apply nlargest_ok. now apply numeric_column_mask.
  - rewrite Hp. cbn [exc_bind]. eexists. split; reflexivity.
Qed.

Lemma dashboard_total h m t mg tf S C :
  nth_error h m = Some mg -> nth_error h t = Some tf ->
  trade_schema mg = true -> profile_schema tf = true ->
  exists v h', dashboard m t S C h = (inr v, h').
Proof.
  intros Hm Ht Hmg Htf. unfold trade_schema, profile_schema in *. split_andb.
  cut (exists r, dashboard m t S C (h ++ []) = (inr (fst r), snd r)).
  { rewrite app_nil_r. intros [[v h'] Hr]. now exists v, h'. }
  unfold dashboard, numeric_col, col, mask, cols, set_col.
  repeat step. rewrite bind_lift, (getitem_ok mg "classification") by assumption.
  repeat step. rewrite bind_lift, (getitem_ok tf "cluster") by assumption.
  repeat step. rewrite bind_lift, (getitem_ok mg "classification") by assumption.
  repeat step. rewrite bind_lift, (getitem_ok tf "cluster") by assumption.
  repeat step.
  match goal with |- context [h ++ [?a; ?b]] => set (fm := a); set (fc := b) end.
  assert (Hpnl : numeric_column fm "closed_pnl" = true)
    by now apply numeric_column_mask.
  assert (Hwin : numeric_column fm "win" = true) by now apply numeric_column_mask.
  assert (Hsize : numeric_column fm "size_usd" = true)
    by now apply numeric_column_mask.
  assert (Hrect : rectangular fm = true) by now apply rectangular_mask.
  destruct (numeric_col_ok _ _ Hpnl) as [G1 N1].
  destruct (numeric_col_ok _ _ Hwin) as [G2 N2].
  destruct (numeric_col_ok _ _ Hsize) as [G3 N3].
  rewrite bind_lift, G1, bind_lift, N1.
  repeat step. rewrite bind_lift, G2, bind_lift, N2.
  repeat step.
  destruct (groupby_mean_ok fm "classification" "win") as [r1 R1]; try assumption.
  rewrite bind_lift, R1.
  repeat step.
  destruct (groupby_mean_ok fm "side" "win") as [r2 R2]; try assumption.
  rewrite bind_lift, R2.
  repeat step. rewrite bind_lift, G3.
  destruct (qcut_ok "size_usd" (map (fun r => cell (columns fm) r "size_usd") (rows fm)))
    as [binned Hq].
  { apply to_numeric_inr in N3. tauto. }
  rewrite bind_lift, Hq.
  repeat step.
  destruct (groupby_mean_ok
              (setitem fm "size_bin" (fst binned) (Some (snd binned)))
              "size_bin" "win") as [r3 R3].
  { apply has_column_setitem_same. }
  { apply numeric_column_setitem; [assumption|discriminate|assumption]. }
  rewrite bind_lift, R3.
  repeat step.
  unfold groupby_mean_numeric at 1.
  rewrite bind_lift, (getitem_ok fc "cluster") by assumption. cbn [exc_bind].
  repeat step.
  destruct (groupby_apply_nlargest_ok tf) as [top [Htop Hcols]]; try assumption.
  rewrite bind_lift, Htop.
  repeat step.
  unfold getitem_list at 1. rewrite first_missing_none.
  2:{ unfold has_column. rewrite Hcols. fold (has_column tf).
      cbn [forallb]. unfold has_column in *.
      repeat (apply andb_true_iff; split); try assumption; try reflexivity.
      now apply numeric_has_column. }
  rewrite bind_lift.
  repeat step.
  destruct (pivot_table_mean_ok mg "cluster" "classification" "win")
    as [heat Hheat]; try assumption.
  rewrite bind_lift, Hheat.
  unfold ret. eexists (_, _). reflexivity.
Qed.

(** On well-formed tables the dashboard completes, and the run went
    through every call. *)
Lemma dashboard_run h m t mg tf S C :
  nth_error h m = Some mg -> nth_error h t = Some tf ->
  trade_schema mg = true -> profile_schema tf = true ->
  exists v new, dashboard m t S C h = (inr v, h ++ new) /\
                dashboard_trace mg tf S C v new.
Proof.
  intros Hm Ht Hmg Htf.
  destruct (@dashboard_total h m t mg tf S C Hm Ht Hmg Htf) as (v & h' & Hrun).
  destruct (@dashboard_inv h m t mg tf S C v h' Hm Ht Hrun) as (new & -> & Htr).
  eauto.
Qed.

(** ** Frame rules: which objects a computation can touch *)

Section Frame.

Variable h0 : heap.

Lemma keeps_ret {A} (a : A) : keeps h0 (ret a) (fun _ => True).
Proof. intros l. exists l. now split. Qed.

Lemma keeps_lift {A} (c : Exc A) : keeps h0 (lift c) (fun _ => True).
Proof. intros l. exists l. cbn. split; [reflexivity|now destruct c]. Qed.

Lemma keeps_deref r : keeps h0 (deref r) (fun _ => True).
Proof.
  intros l. exists l. unfold deref.
  destruct (nth_error (h0 ++ l) r); now split.
Qed.

(** A new object comes after those of [h0]. *)
Lemma keeps_alloc df : keeps h0 (alloc df) (fun r => length h0 <= r).
Proof.
  intros l. exists (l ++ [df]). cbn. rewrite app_assoc, length_app.
  split; [reflexivity|lia].
Qed.

(** Updating an object that is not one of [h0]. *)
Lemma keeps_assign r df :
  length h0 <= r -> keeps h0 (assign r df) (fun _ => True).
Proof.
  intros Hr l. unfold assign.
  destruct (Nat.ltb_spec r (length (h0 ++ l))) as [Hlt|Hge]; cbn [fst snd].
  - exists (firstn (r - length h0) l ++ df :: skipn (S r - length h0) l).
    split; [|trivial].
    rewrite firstn_app, skipn_app, firstn_all2, skipn_all2 by lia.
    cbn [Datatypes.app]. now rewrite <- app_assoc.
  - exists l. now split.
Qed.

Lemma keeps_bind {A B} (c : M A) (k : A -> M B) (P : A -> Prop) (Q : B -> Prop) :
  keeps h0 c P -> (forall a, P a -> keeps h0 (k a) Q) -> keeps h0 (bind c k) Q.
Proof.
  intros Hc Hk l. unfold bind.
  destruct (Hc l) as (l1 & E1 & P1).
  destruct (c (h0 ++ l)) as [[e|a] h1]; cbn [fst snd] in *; subst h1.
  - exists l1. now split.
  - exact (Hk a P1 l1).
Qed.

Lemma keeps_weaken {A} (c : M A) (P Q : A -> Prop) :
  keeps h0 c P -> (forall a, P a -> Q a) -> keeps h0 c Q.
Proof.
  intros Hc HPQ l. destruct (Hc l) as (l1 & E1 & P1). exists l1.
  split; [assumption|]. destruct (fst (c (h0 ++ l))); auto.
Qed.

Lemma keeps_col r c : keeps h0 (col r c) (fun _ => True).
Proof.
  unfold col. eapply keeps_bind; [apply keeps_deref|]. intros; apply keeps_lift.
Qed.

Lemma keeps_numeric_col r c : keeps h0 (numeric_col r c) (fun _ => True).
Proof.
  unfold numeric_col. eapply keeps_bind; [apply keeps_col|].
  intros; apply keeps_lift.
Qed.

(** Boolean indexing builds a new object. *)
Lemma keeps_mask r m : keeps h0 (mask r m) (fun r' => length h0 <= r').
Proof.
  unfold mask. eapply keeps_bind; [apply keeps_deref|]. intros; apply keeps_alloc.
Qed.

Lemma keeps_cols r cs : keeps h0 (cols r cs) (fun r' => length h0 <= r').
Proof.
  unfold cols. eapply keeps_bind; [apply keeps_deref|]. intros df _.
  eapply keeps_bind; [apply keeps_lift|]. intros; apply keeps_alloc.
Qed.

Lemma keeps_merge l r key : keeps h0 (merge l r key) (fun r' => length h0 <= r').
Proof.
  unfold merge. eapply keeps_bind; [apply keeps_deref|]. intros dl _.
  eapply keeps_bind; [apply keeps_deref|]. intros dr _.
  eapply keeps_bind; [apply keeps_lift|]. intros; apply keeps_alloc.
Qed.

(** Column assignment on an object that is not one of [h0]. *)
Lemma keeps_set_col r c s cats :
  length h0 <= r -> keeps h0 (set_col r c s cats) (fun _ => True).
Proof.
  intros Hr. unfold set_col. eapply keeps_bind; [apply keeps_deref|].
  intros; now apply keeps_assign.
Qed.

Lemma keeps_dashboard m t S C : keeps h0 (dashboard m t S C) (fun _ => True).
Proof.
  unfold dashboard.
  eapply keeps_bind; [apply keeps_col|]. intros cls _.
  eapply keeps_bind; [apply keeps_col|]. intros cl _.
  eapply keeps_bind; [apply keeps_col|]. intros cls' _.
  eapply keeps_bind; [apply keeps_mask|]. intros filtered_merged Hfm.
  eapply keeps_bind; [apply keeps_col|]. intros cl' _.
  eapply keeps_bind; [apply keeps_mask|]. intros filtered_clusters Hfc.
  eapply keeps_bind; [apply keeps_deref|]. intros fm _.
  eapply keeps_bind; [apply keeps_numeric_col|]. intros pnl _.
  eapply keeps_bind; [apply keeps_numeric_col|]. intros win _.
  eapply keeps_bind; [apply keeps_deref|]. intros shown_trades _.
  eapply keeps_bind; [apply keeps_deref|]. intros shown_clusters _.
  eapply keeps_bind; [apply keeps_deref|]. intros fm1 _.
  eapply keeps_bind; [apply keeps_lift|]. intros by_sentiment _.
  eapply keeps_bind; [apply keeps_deref|]. intros fm2 _.
  eapply keeps_bind; [apply keeps_lift|]. intros by_side _.
  eapply keeps_bind; [apply keeps_col|]. intros size _.
  eapply keeps_bind; [apply keeps_lift|]. intros binned _.
  eapply keeps_bind; [now apply keeps_set_col|]. intros _ _.
  eapply keeps_bind; [apply keeps_deref|]. intros fm3 _.
  eapply keeps_bind; [apply keeps_lift|]. intros by_size _.
  eapply keeps_bind; [apply keeps_deref|]. intros fc _.
  eapply keeps_bind; [apply keeps_lift|]. intros summary _.
  eapply keeps_bind; [apply keeps_deref|]. intros tf _.
  eapply keeps_bind; [apply keeps_lift|]. intros top _.
  eapply keeps_bind; [apply keeps_alloc|]. intros top_traders _.
  eapply keeps_bind; [apply keeps_cols|]. intros shown_top _.
  eapply keeps_bind; [apply keeps_deref|]. intros mg _.
  eapply keeps_bind; [apply keeps_lift|]. intros heat _.
  apply keeps_ret.
Qed.

End Frame.

(** ** Source tables are never mutated *)

(** C9. Whatever the selections and whatever heap the dashboard starts
    from, the heap it ends with is the initial heap followed by new frames:
    every filter, grouping, binning and pivot builds a new object, and the
    column assignment of line 116 lands in the filtered copy. In
    particular the two loaded tables are the same before and after, on
    completed and on failed runs alike. The same holds for the whole
    script started after [load_data]. *)
Theorem source_tables_never_mutated :
  (forall m t S C h, exists new, snd (dashboard m t S C h) = h ++ new) /\
  (forall fs S C, exists new,
      snd (main fs S C []) = snd (load_data fs []) ++ new).
Proof.
  split.
  - intros m t S C h. destruct (keeps_dashboard h m t S C []) as (new & E & _).
    rewrite app_nil_r in E. eauto.
  - intros fs S C. unfold main, bind at 1.
    destruct (load_data fs []) as [[e|[m t]] h0] eqn:E; cbn [snd].
    + exists []. now rewrite app_nil_r.
    + destruct (keeps_dashboard h0 m t S C []) as (new & E' & _).
      rewrite app_nil_r in E'. eauto.
Qed.

(** ** Filtered trades *)

Lemma rows_mask_isin df c S :
  select (rows df) (isin (map (fun r => cell (columns df) r c) (rows df)) S)
  = rows_in df c S.
Proof.
  unfold isin, rows_in. rewrite map_map.
  apply (select_map_filter
           (fun r => existsb (value_eqb (cell (columns df) r c)) S)).
Qed.

(** C1. On well-formed tables the dashboard completes, and the filtered
    trades it shows are exactly the rows of the joined trade table whose
    classification is among the selected sentiments, in their original
    order: a sub-list of the table, every row of which has its
    classification selected. The cluster selection [C] plays no part. *)
Theorem filtered_trades_by_sentiment h m t mg tf S C :
  nth_error h m = Some mg -> nth_error h t = Some tf ->
  trade_schema mg = true -> profile_schema tf = true ->
  exists v h',
    dashboard m t S C h = (inr v, h') /\
    columns (filtered_merged v) = columns mg /\
    rows (filtered_merged v) = rows_in mg "classification" S /\
    incl (rows (filtered_merged v)) (rows mg) /\
    Forall (fun r => existsb (value_eqb (cell (columns mg) r "classification")) S = true)
           (rows (filtered_merged v)) /\
    (forall r, In r (rows mg) ->
               existsb (value_eqb (cell (columns mg) r "classification")) S = true ->
               In r (rows (filtered_merged v))).
Proof.
  intros Hm Ht Hmg Htf.
  destruct (dashboard_run h m t mg tf S C Hm Ht Hmg Htf) as (v & new & Hrun & Htr).
  exists v, (h ++ new). split; [exact Hrun|].
  destruct Htr as (cls & cl & pnl_s & pnl & win_s & win & by_sentiment & by_side &
                   size & binned & by_size & summary & top & shown & heat & Htr).
  cbv zeta in Htr.
  destruct Htr as (E1 & _ & _ & _ & _ & _ & _ & _ & _ & _ & _ & _ & _ & _ & _ & Hv & _).
  apply getitem_inr in E1 as [_ ->]. subst v. cbn [filtered_merged columns rows getitem_mask].
  rewrite rows_mask_isin. unfold rows_in.
  repeat split.
  - intros r Hr. apply filter_In in Hr. tauto.
  - apply Forall_forall. intros r Hr. apply filter_In in Hr. tauto.
  - intros r Hr Hs. apply filter_In. now split.
Qed.

Lemma filtered_trades_by_sentiment_witness :
  exists v h',
    dashboard 0 1 [Str "Fear"] [Num 0] [ex_merged; ex_profiles] = (inr v, h') /\
    columns (filtered_merged v) = columns ex_merged /\
    rows (filtered_merged v) = rows_in ex_merged "classification" [Str "Fear"] /\
    incl (rows (filtered_merged v)) (rows ex_merged) /\
    Forall (fun r => existsb (value_eqb (cell (columns ex_merged) r "classification"))
                       [Str "Fear"] = true)
           (rows (filtered_merged v)) /\
    (forall r, In r (rows ex_merged) ->
               existsb (value_eqb (cell (columns ex_merged) r "classification"))
                 [Str "Fear"] = true ->
               In r (rows (filtered_merged v))).
Proof.
  apply (filtered_trades_by_sentiment [ex_merged; ex_profiles] 0 1
           ex_merged ex_profiles [Str "Fear"] [Num 0]); reflexivity.
Defined.

(** Opening the trace of a completed run. *)
Ltac open_trace H :=
  let cls := fresh "cls" in
  let cl := fresh "cl" in
  let pnl_s := fresh "pnl_s" in
  let pnl := fresh "pnl" in
  let win_s := fresh "win_s" in
  let win := fresh "win" in
  let by_sentiment := fresh "by_sentiment" in
  let by_side := fresh "by_side" in
  let size := fresh "size" in
  let binned := fresh "binned" in
  let by_size := fresh "by_size" in
  let summary := fresh "summary" in
  let top := fresh "top" in
  let shown := fresh "shown" in
  let heat := fresh "heat" in
  destruct H as (cls & cl & pnl_s & pnl & win_s & win & by_sentiment & by_side &
                 size & binned & by_size & summary & top & shown & heat & H);
  cbv zeta in H;
  destruct H as (Ecls & Ecl & Epnl_s & Epnl & Ewin_s & Ewin & Eby_sentiment &
                 Eby_side & Esize & Ebinned & Eby_size & Esummary & Etop &
                 Eshown & Eheat & Eviews & Enew).

(** ** Overall win rate *)

Lemma dropna_flags cols rs :
  forallb (win_flag cols) rs = true ->
  length (dropna (map (fun r => float_of (cell cols r "win")) rs)) = length rs /\
  (Qsum (dropna (map (fun r => float_of (cell cols r "win")) rs))
   == inject_Z (Z.of_nat (length (filter (is_win cols) rs))))%Q.
Proof.
  induction rs as [|r rs IH]; [now split|].
  cbn [forallb]. intros H. apply andb_true_iff in H as [Hr Hrs].
  destruct (IH Hrs) as [IHl IHs]. clear IH.
  unfold win_flag in Hr.
  destruct (cell cols r "win") as [s|x|lo hi|] eqn:Ec; try discriminate.
  assert (Hw : is_win cols r = Qeq_bool x 1) by (unfold is_win; now rewrite Ec).
  cbn [map filter]. rewrite Hw, Ec.
  change (dropna (float_of (Num x) :: ?l)) with (x :: dropna l).
  cbn [length Qsum fold_right].
  fold (Qsum (dropna (map (fun r => float_of (cell cols r "win")) rs))).
  split; [now rewrite IHl|].
  rewrite IHs. apply orb_true_iff in Hr as [H0|H1].
  - apply Qeq_bool_iff in H0.
    destruct (Qeq_bool x 1) eqn:E1.
    + apply Qeq_bool_iff in E1. rewrite H0 in E1. discriminate.
    + rewrite H0. ring.
  - rewrite H1. apply Qeq_bool_iff in H1. rewrite H1.
    cbn [length]. rewrite Nat2Z.inj_succ, <- Z.add_1_l, inject_Z_plus. ring.
Qed.

Lemma mean_flags cols rs :
  forallb (win_flag cols) rs = true -> rs <> [] ->
  exists q,
    mean (map (fun r => float_of (cell cols r "win")) rs) = Some q /\
    (q == inject_Z (Z.of_nat (length (filter (is_win cols) rs)))
          / inject_Z (Z.of_nat (length rs)))%Q.
Proof.
  intros Hf Hne. destruct (dropna_flags cols rs Hf) as [Hl Hs].
  unfold mean.
  destruct (dropna (map (fun r => float_of (cell cols r "win")) rs)) as [|y ys] eqn:E.
  - destruct rs; [congruence|discriminate].
  - eexists. split; [reflexivity|]. now rewrite Hs, Hl.
Qed.

Lemma ratio_bounds (w n : nat) :
  w <= n -> n <> 0 ->
  (0 <= inject_Z (Z.of_nat w) / inject_Z (Z.of_nat n) * 100 <= 100)%Q.
Proof.
  intros Hw Hn.
  assert (Hb : (0 < inject_Z (Z.of_nat n))%Q).
  { change 0%Q with (inject_Z 0). rewrite <- Zlt_Qlt. lia. }
  assert (Ha : (0 <= inject_Z (Z.of_nat w))%Q).
  { change 0%Q with (inject_Z 0). rewrite <- Zle_Qle. lia. }
  assert (Hab : (inject_Z (Z.of_nat w) <= inject_Z (Z.of_nat n))%Q).
  { rewrite <- Zle_Qle. lia. }
  assert (H1 : (inject_Z (Z.of_nat w) / inject_Z (Z.of_nat n) <= 1)%Q).
  { apply Qle_shift_div_r; [assumption|]. now rewrite Qmult_1_l. }
  assert (H0 : (0 <= inject_Z (Z.of_nat w) / inject_Z (Z.of_nat n))%Q).
  { apply Qle_shift_div_l; [assumption|]. now rewrite Qmult_0_l. }
  split; lra.
Qed.

(** C3. On well-formed tables whose [win] column holds the flags 0 and 1,
    the dashboard completes and the overall win rate is the mean of [win]
    over the filtered trades times 100, that is 100 times the number of
    winning rows over the number of rows: a number between 0 and 100 when
    there is a filtered trade, and NaN (not zero) when there is none. *)
Theorem overall_win_rate_mean h m t mg tf S C :
  nth_error h m = Some mg -> nth_error h t = Some tf ->
  trade_schema mg = true -> profile_schema tf = true ->
  win_flags mg = true ->
  exists v h',
    dashboard m t S C h = (inr v, h') /\
    total_trades v = length (rows (filtered_merged v)) /\
    (rows (filtered_merged v) = [] -> overall_win_rate v = None) /\
    (rows (filtered_merged v) <> [] ->
     exists q, overall_win_rate v = Some q /\
               (q == inject_Z (Z.of_nat (win_count (filtered_merged v)))
                     / inject_Z (Z.of_nat (length (rows (filtered_merged v))))
                     * 100)%Q /\
               (0 <= q <= 100)%Q).
Proof.
  intros Hm Ht Hmg Htf Hfl.
  destruct (dashboard_run h m t mg tf S C Hm Ht Hmg Htf) as (v & new & Hrun & Htr).
  exists v, (h ++ new). split; [exact Hrun|].
  open_trace Htr.
  apply getitem_inr in Ewin_s as [_ ->].
  apply to_numeric_inr in Ewin as [_ ->]. rewrite map_map in Eviews.
  subst v. cbn [filtered_merged total_trades overall_win_rate].
  set (fm := getitem_mask mg (isin cls S)).
  assert (Hflags : forallb (win_flag (columns fm)) (rows fm) = true).
  { unfold win_flags in Hfl. apply andb_true_iff in Hfl as [_ Hfl].
    subst fm. cbn [columns rows getitem_mask]. now apply forallb_select. }
  split; [reflexivity|]. split.
  - intros E. rewrite E. reflexivity.
  - intros Hne. destruct (mean_flags _ _ Hflags Hne) as (q & Hq & Eq).
    rewrite Hq. cbn [times100]. eexists. split; [reflexivity|].
    unfold win_count. split.
    + now rewrite Eq.
    + rewrite Eq. apply ratio_bounds.
      * apply filter_length_le.
      * destruct (rows fm); [congruence|discriminate].
Qed.

Lemma overall_win_rate_mean_witness :
  exists v h' q,
    dashboard 0 1 [Str "Fear"] [Num 0] [ex_merged; ex_profiles] = (inr v, h') /\
    total_trades v = 2 /\
    overall_win_rate v = Some q /\
    (q == inject_Z (Z.of_nat (win_count (filtered_merged v)))
          / inject_Z (Z.of_nat (length (rows (filtered_merged v)))) * 100)%Q /\
    (0 <= q <= 100)%Q.
Proof.
  destruct (overall_win_rate_mean [ex_merged; ex_profiles] 0 1
              ex_merged ex_profiles [Str "Fear"] [Num 0]
              eq_refl eq_refl eq_refl eq_refl eq_refl)
    as (v & h' & Hrun & Htotal & _ & Hrate).
  vm_compute in Hrun. injection Hrun as Hv Hh.
  destruct Hrate as (q & Hq & Hmean & Hbounds).
  { rewrite <- Hv. discriminate. }
  exists v, h', q. split; [now rewrite <- Hv, <- Hh|].
  split; [rewrite Htotal, <- Hv; reflexivity|].
  split; [exact Hq|]. split; [exact Hmean|exact Hbounds].
Defined.

(** ** Degenerate selections *)

Lemma no_categorical_nil df : no_categorical df = true -> categoricals df = [].
Proof. unfold no_categorical. now destruct (categoricals df). Qed.

Lemma groupby_mean_inr df by_ c r :
  groupby_mean df by_ c = inr r ->
  r = map (fun k =>
             (k, mean (select (map (fun r => float_of (cell (columns df) r c)) (rows df))
                              (map (value_eqb k)
                                   (map (fun r => cell (columns df) r by_) (rows df))))))
          (group_keys df by_ (map (fun r => cell (columns df) r by_) (rows df))).
Proof.
  unfold groupby_mean.
  destruct (getitem df by_) as [e|keys] eqn:E1; [discriminate|]. cbn [exc_bind].
  destruct (getitem df c) as [e|vals] eqn:E2; [discriminate|]. cbn [exc_bind].
  destruct (to_numeric c vals) as [e|nums] eqn:E3; [discriminate|]. cbn [exc_bind].
  apply getitem_inr in E1 as [_ ->]. apply getitem_inr in E2 as [_ ->].
  apply to_numeric_inr in E3 as [_ ->]. rewrite map_map.
  intros H. now injection H as <-.
Qed.

Lemma qcut_inr c s binned :
  qcut c s 4 = inr binned ->
  forallb is_numeric s = true /\
  binned = (map (fun x => match bin_code (qcut_bins (map float_of s) 4) x with
                          | Some i => nth i (format_labels (qcut_bins (map float_of s) 4)) NaN
                          | None => NaN
                          end) (map float_of s),
            format_labels (qcut_bins (map float_of s) 4)).
Proof.
  unfold qcut. destruct (to_numeric c s) as [e|xs] eqn:E; [discriminate|].
  cbn [exc_bind]. apply to_numeric_inr in E as [Hn ->].
  intros H. injection H as <-. now split.
Qed.

Lemma assoc_app_absent {X} c (l l' : list (string * X)) :
  assoc c l = None -> assoc c (l ++ l') = assoc c l'.
Proof.
  induction l as [|[k x] l IH]; [reflexivity|].
  cbn. destruct (String.eqb c k); [discriminate|]. exact IH.
Qed.

Lemma assoc_filter_absent {X} c (l : list (string * X)) :
  assoc c (filter (fun kc => negb (String.eqb c (fst kc))) l) = None.
Proof.
  induction l as [|[k x] l IH]; [reflexivity|].
  cbn. destruct (String.eqb c k) eqn:E; cbn; [exact IH|]. now rewrite E.
Qed.

Lemma assoc_set_assoc {X} c (x : X) l : assoc c (set_assoc c (Some x) l) = Some x.
Proof.
  unfold set_assoc. rewrite assoc_app_absent by apply assoc_filter_absent.
  cbn. now rewrite String.eqb_refl.
Qed.

Lemma categoricals_setitem df c s cats :
  categoricals (setitem df c s cats) = set_assoc c cats (categoricals df).
Proof. unfold setitem. now destruct (has_column df c). Qed.

Lemma group_keys_setitem df c s cats keys :
  group_keys (setitem df c s (Some cats)) c keys = cats.
Proof. unfold group_keys. now rewrite categoricals_setitem, assoc_set_assoc. Qed.

Lemma unique_by_length {X} (eqb : X -> X -> bool) l seen :
  length (unique_by eqb l seen) <= length l.
Proof.
  revert seen. induction l as [|x l IH]; intros seen; [reflexivity|].
  cbn. destruct (existsb (eqb x) seen); cbn.
  - specialize (IH seen). lia.
  - specialize (IH (x :: seen)). lia.
Qed.

Lemma qcut_bins_length xs : length (qcut_bins xs 4) <= 5.
Proof.
  unfold qcut_bins.
  set (bins := map _ (linspace01 4)).
  assert (Hb : length bins = 5) by (subst bins; now rewrite length_map).
  destruct (_ && _); [|lia].
  rewrite <- Hb. apply unique_by_length.
Qed.

Lemma dropna_length l : length (dropna l) <= length l.
Proof.
  unfold dropna. induction l as [|[x|] l IH]; simpl in *; lia.
Qed.

Lemma from_breaks_length l : length (from_breaks l) = length l - 1.
Proof.
  induction l as [|a l IH]; [reflexivity|].
  destruct l as [|b l]; [reflexivity|].
  change (from_breaks (a :: b :: l)) with (Ivl a b :: from_breaks (b :: l)).
  cbn [length] in *. lia.
Qed.

Lemma format_labels_length bins : length (format_labels bins) <= length bins - 1.
Proof.
  unfold format_labels. pose proof (dropna_length bins) as H.
  destruct (dropna bins) as [|b0 rest]; [cbn; lia|].
  rewrite from_breaks_length. cbn [length] in *. lia.
Qed.

Lemma group_keys_no_rows df by_ :
  categoricals df = [] -> group_keys df by_ [] = [].
Proof. unfold group_keys. now intros ->. Qed.

Lemma rows_in_nil df c : rows_in df c [] = [].
Proof.
  unfold rows_in. cbn [existsb]. induction (rows df); [reflexivity|assumption].
Qed.

Lemma scale_length s : length (scale s) = length s.
Proof. unfold scale. apply length_map. Qed.

(** C4. On well-formed tables the dashboard completes for every pair of
    selections: no aggregation raises. With no sentiment selected the
    filtered trades are empty, and on empty filtered trades the KPIs and
    the grouped views degrade: no trade, a zero sum, a NaN win rate, no
    group, no bin. With no cluster selected the cluster summary is empty.
    The size view has at most 4 bins, fewer when quantile boundaries
    coincide. *)
Theorem aggregation_never_raises h m t mg tf S C :
  nth_error h m = Some mg -> nth_error h t = Some tf ->
  trade_schema mg = true -> profile_schema tf = true ->
  exists v h',
    dashboard m t S C h = (inr v, h') /\
    (S = [] -> rows (filtered_merged v) = []) /\
    (C = [] -> rows (filtered_clusters v) = []) /\
    (rows (filtered_merged v) = [] ->
     total_trades v = 0 /\ total_pnl v = 0%Q /\ overall_win_rate v = None /\
     win_rate v = [] /\ side_win v = [] /\ size_bin v = [] /\ size_win v = []) /\
    (rows (filtered_clusters v) = [] -> snd (cluster_summary v) = []) /\
    length (size_win v) <= 4.
Proof.
  intros Hm Ht Hmg Htf.
  destruct (dashboard_run h m t mg tf S C Hm Ht Hmg Htf) as (v & new & Hrun & Htr).
  exists v, (h ++ new). split; [exact Hrun|].
  unfold trade_schema, profile_schema in *. split_andb.
  open_trace Htr.
  set (fm := getitem_mask mg (isin cls S)) in *.
  set (fc := getitem_mask tf (isin cl C)) in *.
  assert (Hcat : categoricals fm = []) by now apply no_categorical_nil.
  assert (Hcatc : categoricals fc = []) by now apply no_categorical_nil.
  apply getitem_inr in Epnl_s as [_ ->]. apply to_numeric_inr in Epnl as [_ ->].
  apply getitem_inr in Ewin_s as [_ ->]. apply to_numeric_inr in Ewin as [_ ->].
  apply groupby_mean_inr in Eby_sentiment, Eby_side, Eby_size.
  apply getitem_inr in Esize as [_ ->]. apply qcut_inr in Ebinned as [_ Ebinned].
  rewrite group_keys_setitem in Eby_size.
  subst v. cbn [filtered_merged filtered_clusters total_trades total_pnl
                overall_win_rate win_rate side_win size_bin size_win cluster_summary].
  split; [|split; [|split; [|split]]].
  - intros ES. subst fm. cbn [rows getitem_mask].
    apply getitem_inr in Ecls as [_ Ecls].
    rewrite ES, Ecls, rows_mask_isin. apply rows_in_nil.
  - intros EC. subst fc. cbn [rows getitem_mask].
    apply getitem_inr in Ecl as [_ Ecl].
    rewrite EC, Ecl, rows_mask_isin. apply rows_in_nil.
  - intros E. rewrite E in *. cbn [map] in *.
    rewrite !(group_keys_no_rows fm _ Hcat) in *.
    subst by_sentiment by_side binned. cbn [fst snd map] in *.
    subst by_size. repeat split; reflexivity.
  - intros E. unfold groupby_mean_numeric in Esummary.
    destruct (getitem fc "cluster") as [e|keys] eqn:Ek; [discriminate|].
    apply getitem_inr in Ek as [_ ->]. cbn [exc_bind] in Esummary.
    injection Esummary as <-. cbn [snd].
    change (select (rows tf) (isin cl C)) with (rows fc). rewrite E. cbn [map].
    now rewrite (group_keys_no_rows fc _ Hcatc).
  - rewrite scale_length. subst by_size binned. cbn [snd]. rewrite length_map.
    pose proof (format_labels_length
                  (qcut_bins (map float_of
                     (map (fun r => cell (columns fm) r "size_usd") (rows fm))) 4)).
    pose proof (qcut_bins_length
                  (map float_of
                     (map (fun r => cell (columns fm) r "size_usd") (rows fm)))).
    lia.
Qed.

Lemma aggregation_never_raises_witness :
  exists v h',
    dashboard 0 1 [] [] [ex_merged; ex_profiles] = (inr v, h') /\
    rows (filtered_merged v) = [] /\
    rows (filtered_clusters v) = [] /\
    total_trades v = 0 /\ total_pnl v = 0%Q /\ overall_win_rate v = None /\
    win_rate v = [] /\ side_win v = [] /\ size_bin v = [] /\ size_win v = [] /\
    snd (cluster_summary v) = [].
Proof.
  destruct (aggregation_never_raises [ex_merged; ex_profiles] 0 1
              ex_merged ex_profiles [] [] eq_refl eq_refl eq_refl eq_refl)
    as (v & h' & Hrun & HS & HC & Hempty & Hsummary & _).
  exists v, h'. split; [exact Hrun|].
  split; [exact (HS eq_refl)|]. split; [exact (HC eq_refl)|].
  destruct (Hempty (HS eq_refl)) as (H1 & H2 & H3 & H4 & H5 & H6 & H7).
  repeat (split; [assumption|]). exact (Hsummary (HC eq_refl)).
Defined.

(** ** Equality of cells *)

Lemma value_eqb_refl v : value_eqb v v = true.
Proof.
  destruct v; cbn; try reflexivity.
  - apply String.eqb_refl.
  - apply Qeq_bool_iff. reflexivity.
  - apply andb_true_iff. split; apply Qeq_bool_iff; reflexivity.
Qed.

Lemma value_eqb_sym a b : value_eqb a b = value_eqb b a.
Proof.
  destruct a, b; cbn; try reflexivity.
  - apply String.eqb_sym.
  - apply Qeq_bool_comm.
  - now rewrite (Qeq_bool_comm lo), (Qeq_bool_comm hi).
Qed.

Lemma value_eqb_trans a b c :
  value_eqb a b = true -> value_eqb b c = true -> value_eqb a c = true.
Proof.
  destruct a, b, c; cbn; try discriminate; try reflexivity.
  - intros H1 H2. apply String.eqb_eq in H1, H2. apply String.eqb_eq. congruence.
  - intros H1 H2. apply Qeq_bool_iff in H1, H2. apply Qeq_bool_iff.
    now rewrite H1.
  - intros H1 H2. apply andb_true_iff in H1 as [A1 B1], H2 as [A2 B2].
    apply Qeq_bool_iff in A1, B1, A2, B2.
    apply andb_true_iff. split; apply Qeq_bool_iff; [now rewrite A1|now rewrite B1].
Qed.

(** Cells equal to a given one are interchangeable as keys. *)
Lemma value_eqb_congr a b c :
  value_eqb a b = true -> value_eqb a c = value_eqb b c.
Proof.
  intros H. destruct (value_eqb b c) eqn:E.
  - now apply value_eqb_trans with b.
  - destruct (value_eqb a c) eqn:E'; [|reflexivity].
    rewrite value_eqb_sym in H. now rewrite (value_eqb_trans _ _ _ H E') in E.
Qed.

(** ** Loading *)






Lemma filter_map_comm {X Y} (f : Y -> bool) (g : X -> Y) l :
  filter f (map g l) = map g (filter (fun x => f (g x)) l).
Proof.
  induction l as [|x l IH]; [reflexivity|].
  cbn. destruct (f (g x)); cbn; now rewrite IH.
Qed.





Lemma index_of_app_absent c cols extra :
  existsb (String.eqb c) cols = false ->
  index_of c (cols ++ extra) = length cols + index_of c extra.
Proof.
  induction cols as [|x cols IH]; [reflexivity|].
  cbn. destruct (String.eqb c x); cbn; [discriminate|]. intros H. now rewrite IH.
Qed.







(** The example: the joined table of the small data set. *)
Lemma ex_load_data :
  load_data ex_fs []
  = (inr (3, 1),
     [ex_trades; ex_profiles;
      {| columns := ["account"; "cluster"];
         rows := [[Str "A"; Num 0]; [Str "B"; Num 1]];
         categoricals := [] |};
      ex_merged]).
Proof. reflexivity. Qed.

(** ** What the loader checks *)








(** ** Sorting and duplicate removal keep the elements *)

Lemma insert_by_perm {X} (leb : X -> X -> bool) a l :
  Permutation (insert_by leb a l) (a :: l).
Proof.
  induction l as [|b l IH]; [reflexivity|].
  cbn. destruct (leb a b); [reflexivity|].
  rewrite IH. apply perm_swap.
Qed.

Lemma sort_by_perm {X} (leb : X -> X -> bool) l : Permutation (sort_by leb l) l.
Proof.
  induction l as [|a l IH]; [reflexivity|].
  cbn. rewrite insert_by_perm. now constructor.
Qed.

Lemma sort_by_In {X} (leb : X -> X -> bool) l x : In x (sort_by leb l) <-> In x l.
Proof.
  split; apply Permutation_in; [|symmetry]; apply sort_by_perm.
Qed.

Lemma unique_by_In {X} (eqb : X -> X -> bool) l seen x :
  In x (unique_by eqb l seen) -> In x l.
Proof.
  revert seen. induction l as [|y l IH]; intros seen; [contradiction|].
  cbn. destruct (existsb (eqb y) seen); cbn; intros H.
  - right. eapply IH. eassumption.
  - destruct H as [->|H]; [now left|]. right. eapply IH. eassumption.
Qed.

(** Every element has an equal one among the first occurrences, unless an
    equal one was seen before. *)
Lemma unique_by_complete l seen v :
  existsb (value_eqb v) l = true ->
  existsb (value_eqb v) seen = true \/
  existsb (value_eqb v) (unique_by value_eqb l seen) = true.
Proof.
  revert seen. induction l as [|y l IH]; intros seen; [discriminate|].
  cbn [existsb unique_by]. intros H.
  destruct (existsb (value_eqb y) seen) eqn:Ey.
  - apply orb_true_iff in H as [H|H]; [|now apply IH].
    left. apply existsb_exists in Ey as (z & Hz & Eyz).
    apply existsb_exists. exists z. split; [assumption|].
    now apply value_eqb_trans with y.
  - cbn [existsb]. apply orb_true_iff in H as [H|H].
    + right. now rewrite H.
    + destruct (IH (y :: seen) H) as [H'|H'].
      * cbn [existsb] in H'. apply orb_true_iff in H' as [H'|H'];
          [right; now rewrite H'|now left].
      * right. rewrite H'. apply orb_true_r.
Qed.

Lemma existsb_perm {X} (f : X -> bool) l l' :
  Permutation l l' -> existsb f l = existsb f l'.
Proof.
  intros H. destruct (existsb f l') eqn:E.
  - apply existsb_exists in E as (x & Hx & Fx). apply existsb_exists.
    exists x. split; [|assumption]. eapply Permutation_in; [symmetry|]; eassumption.
  - destruct (existsb f l) eqn:E'; [|reflexivity].
    apply existsb_exists in E' as (x & Hx & Fx).
    assert (existsb f l' = true); [|congruence].
    apply existsb_exists. exists x. split; [|assumption].
    eapply Permutation_in; eassumption.
Qed.

(** The sorted distinct keys hold, up to equality, the keys of the
    series. *)
Lemma sorted_unique_complete l v :
  existsb (value_eqb v) l = true ->
  existsb (value_eqb v) (sort_by value_leb (unique l)) = true.
Proof.
  intros H. rewrite (existsb_perm _ _ _ (sort_by_perm value_leb (unique l))).
  destruct (unique_by_complete l [] v H) as [H'|H']; [discriminate|exact H'].
Qed.

Lemma sorted_unique_In l v : In v (sort_by value_leb (unique l)) -> In v l.
Proof.
  intros H. apply sort_by_In in H. eapply unique_by_In. exact H.
Qed.

Lemma find_index_some v l :
  existsb (value_eqb v) l = true ->
  exists n, find_index v l = Some n /\ n < length l /\
            value_eqb v (nth n l NaN) = true.
Proof.
  induction l as [|w l IH]; [discriminate|].
  cbn [existsb find_index]. destruct (value_eqb v w) eqn:E.
  - intros _. exists 0. cbn. repeat split; [lia|assumption].
  - cbn [orb]. intros H. destruct (IH H) as (n & -> & Hn & Hv).
    exists (S n). cbn. repeat split; [lia|assumption].
Qed.

Lemma find_index_none v l :
  existsb (value_eqb v) l = false -> find_index v l = None.
Proof.
  induction l as [|w l IH]; [reflexivity|].
  cbn [existsb find_index]. destruct (value_eqb v w); [discriminate|].
  cbn [orb]. intros H. now rewrite (IH H).
Qed.

(** ** The pivot, row by row *)

Lemma combine_map {X Y Z} (f : X -> Y) (g : X -> Z) l :
  combine (map f l) (map g l) = map (fun x => (f x, g x)) l.
Proof. induction l as [|x l IH]; [reflexivity|]. cbn. now rewrite IH. Qed.

Lemma select_map_mask {X Y} (w : X -> Y) (g : X -> bool) l :
  select (map w l) (map g l) = map w (filter g l).
Proof. now rewrite select_map, select_map_filter. Qed.

Lemma pivot_table_mean_inr df i c v p :
  pivot_table_mean df i c v = inr p ->
  p = {| p_index :=
           sort_by value_leb
             (unique (map (fun r => cell (columns df) r i) (pivot_rows df i c v)));
         p_columns :=
           sort_by value_leb
             (unique (map (fun r => cell (columns df) r c) (pivot_rows df i c v)));
         p_values :=
           map (fun a =>
                  map (fun b => group_mean df i c v a b)
                      (sort_by value_leb
                         (unique (map (fun r => cell (columns df) r c)
                                      (pivot_rows df i c v)))))
               (sort_by value_leb
                  (unique (map (fun r => cell (columns df) r i)
                               (pivot_rows df i c v)))) |}.
Proof.
  unfold pivot_table_mean.
  destruct (getitem df v) as [e|vals] eqn:Ev; [discriminate|]. cbn [exc_bind].
  destruct (getitem df i) as [e|ikeys] eqn:Ei; [discriminate|]. cbn [exc_bind].
  destruct (getitem df c) as [e|ckeys] eqn:Ec; [discriminate|]. cbn [exc_bind].
  destruct (to_numeric v vals) as [e|nums] eqn:En; [discriminate|]. cbn [exc_bind].
  apply getitem_inr in Ev as [_ ->], Ei as [_ ->], Ec as [_ ->].
  apply to_numeric_inr in En as [_ ->].
  intros H. injection H as <-.
  rewrite map_map, combine_map.
  assert (Hagg : forall a b,
             mean (select (map (fun r => float_of (cell (columns df) r v)) (rows df))
                          (map (fun p => value_eqb a (fst p) && value_eqb b (snd p))
                               (map (fun r => (cell (columns df) r i,
                                               cell (columns df) r c)) (rows df))))
             = group_mean df i c v a b).
  { intros a b. rewrite map_map. cbn [fst snd].
    now rewrite (select_map_mask
                   (fun r => float_of (cell (columns df) r v))
                   (fun r => value_eqb a (cell (columns df) r i) &&
                             value_eqb b (cell (columns df) r c))). }
  assert (Hkept :
            filter (fun p => negb (isna (fst p)) && negb (isna (snd p)) &&
                             match mean (select
                                     (map (fun r => float_of (cell (columns df) r v))
                                          (rows df))
                                     (map (fun p0 => value_eqb (fst p) (fst p0) &&
                                                     value_eqb (snd p) (snd p0))
                                          (map (fun r => (cell (columns df) r i,
                                                          cell (columns df) r c))
                                               (rows df)))) with
                             | Some _ => true
                             | None => false
                             end)
                   (map (fun r => (cell (columns df) r i, cell (columns df) r c))
                        (rows df))
            = map (fun r => (cell (columns df) r i, cell (columns df) r c))
                  (pivot_rows df i c v)).
  { rewrite filter_map_comm. cbn [fst snd]. unfold pivot_rows. f_equal.
    apply filter_ext. intros r. now rewrite Hagg. }
  rewrite Hkept, !map_map. cbn [fst snd].
  f_equal. apply map_ext. intros a. apply map_ext. intros b. apply Hagg.
Qed.

Lemma pivot_at_times100 p a b :
  pivot_at (pivot_times100 p) a b
  = match pivot_at p a b with
    | Some x => Some (times100 x)
    | None => None
    end.
Proof.
  unfold pivot_at, pivot_times100. cbn [p_index p_columns p_values].
  destruct (find_index a (p_index p)) as [n|]; [|reflexivity].
  destruct (find_index b (p_columns p)) as [m|]; [|reflexivity].
  f_equal.
  change (@nil float) with (map times100 []) at 1.
  rewrite map_nth. change (@None Q) with (times100 None) at 1.
  now rewrite map_nth.
Qed.

Lemma group_rows_congr df i c a a' b b' :
  value_eqb a a' = true -> value_eqb b b' = true ->
  group_rows df i c a b = group_rows df i c a' b'.
Proof.
  intros Ha Hb. unfold group_rows. apply filter_ext. intros r.
  now rewrite (value_eqb_congr a a' _ Ha), (value_eqb_congr b b' _ Hb).
Qed.

Lemma group_mean_congr df i c v a a' b b' :
  value_eqb a a' = true -> value_eqb b b' = true ->
  group_mean df i c v a b = group_mean df i c v a' b'.
Proof.
  intros Ha Hb. unfold group_mean. now rewrite (group_rows_congr df i c a a' b b').
Qed.

Lemma nth_map_in {X Y} (f : X -> Y) l n d d' :
  n < length l -> nth n (map f l) d' = f (nth n l d).
Proof.
  intros Hn. rewrite (nth_indep (map f l) d' (f d)) by now rewrite length_map.
  apply map_nth.
Qed.

(** The cell of a pivot at two labels it has. *)
Lemma pivot_at_cell df i c v p a b :
  pivot_table_mean df i c v = inr p ->
  pivot_at p a b
  = if existsb (value_eqb a) (p_index p) && existsb (value_eqb b) (p_columns p)
    then Some (group_mean df i c v a b)
    else None.
Proof.
  intros Hp. apply pivot_table_mean_inr in Hp. unfold pivot_at.
  destruct (existsb (value_eqb a) (p_index p)) eqn:Ea.
  2:{ now rewrite (find_index_none _ _ Ea). }
  destruct (find_index_some _ _ Ea) as (n & -> & Hn & Han).
  destruct (existsb (value_eqb b) (p_columns p)) eqn:Eb.
  2:{ now rewrite (find_index_none _ _ Eb). }
  destruct (find_index_some _ _ Eb) as (k & -> & Hk & Hbk).
  cbn [andb]. f_equal.
  rewrite Hp in Hn, Hk, Han, Hbk |- *. cbn [p_index p_columns p_values] in *.
  rewrite (nth_map_in _ _ n NaN) by exact Hn.
  rewrite (nth_map_in _ _ k NaN) by exact Hk.
  symmetry. now apply group_mean_congr.
Qed.

Lemma value_eqb_notna a b : value_eqb a b = true -> isna a = false -> isna b = false.
Proof. destruct a, b; cbn; congruence. Qed.

(** A non-empty group whose mean is a number has its two labels in the
    pivot. *)
Lemma pivot_labels df i c v p a b :
  pivot_table_mean df i c v = inr p ->
  isna a = false -> isna b = false ->
  group_rows df i c a b <> [] ->
  group_mean df i c v a b <> None ->
  existsb (value_eqb a) (p_index p) = true /\
  existsb (value_eqb b) (p_columns p) = true.
Proof.
  intros Hp Ha Hb Hne Hmean. apply pivot_table_mean_inr in Hp. rewrite Hp.
  cbn [p_index p_columns].
  destruct (group_rows df i c a b) as [|r G] eqn:EG; [congruence|].
  assert (Hr : In r (group_rows df i c a b)) by (rewrite EG; now left).
  unfold group_rows in Hr. apply filter_In in Hr as [Hin Hr].
  apply andb_true_iff in Hr as [Hra Hrb].
  assert (Hk : In r (pivot_rows df i c v)).
  { unfold pivot_rows. apply filter_In. split; [assumption|].
    rewrite (value_eqb_notna _ _ Hra Ha), (value_eqb_notna _ _ Hrb Hb). cbn [negb andb].
    rewrite <- (group_mean_congr df i c v a _ b _ Hra Hrb).
    destruct (group_mean df i c v a b); [reflexivity|congruence]. }
  split; apply sorted_unique_complete; apply existsb_exists.
  - exists (cell (columns df) r i). split; [|assumption].
    now apply (in_map (fun r => cell (columns df) r i)).
  - exists (cell (columns df) r c). split; [|assumption].
    now apply (in_map (fun r => cell (columns df) r c)).
Qed.

(** ** The sentiment x cluster heatmap *)

Lemma forallb_filter {X} (p f : X -> bool) l :
  forallb p l = true -> forallb p (filter f l) = true.
Proof.
  intros H. apply forallb_forall. intros x Hx. apply filter_In in Hx as [Hx _].
  rewrite forallb_forall in H. now apply H.
Qed.

(** C7. On well-formed tables whose [win] column holds the flags 0 and 1,
    the heatmap is the pivot of the whole joined trade table times 100: it
    depends on the table only, not on the selections. For a cluster [c] and
    a sentiment [s] that occur together, its cell at [(c, s)] is 100 times
    the share of winning rows among the rows of the table with that
    cluster and that sentiment. For a pair that does not occur, there is
    no cell or the cell is NaN; it is never a number. *)
Theorem heatmap_cell_mean h m t mg tf S C :
  nth_error h m = Some mg -> nth_error h t = Some tf ->
  trade_schema mg = true -> profile_schema tf = true ->
  win_flags mg = true ->
  exists v h' heat,
    dashboard m t S C h = (inr v, h') /\
    pivot_table_mean mg "cluster" "classification" "win" = inr heat /\
    heatmap_data v = pivot_times100 heat /\
    forall c s, isna c = false -> isna s = false ->
      let G := group_rows mg "cluster" "classification" c s in
      (G <> [] ->
       exists q, pivot_at (heatmap_data v) c s = Some (Some q) /\
                 (q == inject_Z (Z.of_nat (length (filter (is_win (columns mg)) G)))
                       / inject_Z (Z.of_nat (length G)) * 100)%Q) /\
      (G = [] ->
       pivot_at (heatmap_data v) c s = None \/
       pivot_at (heatmap_data v) c s = Some None).
Proof.
  intros Hm Ht Hmg Htf Hfl.
  destruct (dashboard_run h m t mg tf S C Hm Ht Hmg Htf) as (v & new & Hrun & Htr).
  open_trace Htr.
  exists v, (h ++ new), heat. split; [exact Hrun|]. split; [exact Eheat|].
  split; [now subst v|].
  intros c s Hc Hs G. subst v. cbn [heatmap_data].
  rewrite pivot_at_times100, (pivot_at_cell _ _ _ _ _ c s Eheat).
  fold G. unfold group_mean. fold G.
  split.
  - intros Hne.
    assert (HG : forallb (win_flag (columns mg)) G = true).
    { unfold win_flags in Hfl. apply andb_true_iff in Hfl as [_ Hfl].
      now apply forallb_filter. }
    destruct (mean_flags _ _ HG Hne) as (q & Hq & Eq).
    destruct (pivot_labels _ _ _ _ _ c s Eheat Hc Hs) as [-> ->].
    + exact Hne.
    + unfold group_mean. fold G. now rewrite Hq.
    + cbn [andb]. rewrite Hq. cbn [times100]. eexists. split; [reflexivity|].
      now rewrite Eq.
  - intros E. rewrite E. cbn [map]. destruct (_ && _); [now right|now left].
Qed.

Lemma heatmap_cell_mean_witness :
  exists v h' q,
    dashboard 0 1 [Str "Fear"] [Num 0] [ex_merged; ex_profiles] = (inr v, h') /\
    pivot_at (heatmap_data v) (Num 0) (Str "Fear") = Some (Some q) /\
    (q == 100)%Q /\
    (pivot_at (heatmap_data v) (Num 1) (Str "Fear") = None \/
     pivot_at (heatmap_data v) (Num 1) (Str "Fear") = Some None).
Proof.
  destruct (heatmap_cell_mean [ex_merged; ex_profiles] 0 1
              ex_merged ex_profiles [Str "Fear"] [Num 0]
              eq_refl eq_refl eq_refl eq_refl eq_refl)
    as (v & h' & heat & Hrun & _ & _ & Hcell).
  destruct (Hcell (Num 0) (Str "Fear") eq_refl eq_refl) as [Hocc _].
  destruct (Hcell (Num 1) (Str "Fear") eq_refl eq_refl) as [_ Habs].
  destruct Hocc as (q & Hq & Hmean); [discriminate|].
  exists v, h', q. split; [exact Hrun|]. split; [exact Hq|].
  split; [rewrite Hmean; reflexivity|]. apply Habs. reflexivity.
Defined.

(** ** Trades without profile and the heatmap *)

Lemma filter_filter_and {X} (f g : X -> bool) l :
  filter f (filter g l) = filter (fun x => g x && f x) l.
Proof.
  induction l as [|x l IH]; [reflexivity|].
  cbn. destruct (g x); cbn; [destruct (f x)|]; now rewrite IH.
Qed.

(** The rows without cluster are in no group of a pivot by cluster. *)
Lemma group_rows_matched_only df c a b :
  isna a = false ->
  group_rows (matched_only df) "cluster" c a b = group_rows df "cluster" c a b.
Proof.
  intros Ha. unfold group_rows, matched_only. cbn [columns rows].
  rewrite filter_filter_and. apply filter_ext. intros r.
  destruct (value_eqb a (cell (columns df) r "cluster")) eqn:E.
  - now rewrite (value_eqb_notna _ _ E Ha).
  - cbn [andb]. apply andb_false_r.
Qed.

Lemma group_mean_matched_only df c v a b :
  isna a = false ->
  group_mean (matched_only df) "cluster" c v a b = group_mean df "cluster" c v a b.
Proof.
  intros Ha. unfold group_mean. now rewrite group_rows_matched_only.
Qed.

Lemma pivot_rows_matched_only df c v :
  pivot_rows (matched_only df) "cluster" c v = pivot_rows df "cluster" c v.
Proof.
  unfold pivot_rows at 1. cbn [columns rows matched_only].
  rewrite filter_filter_and. unfold pivot_rows. apply filter_ext. intros r.
  destruct (isna (cell (columns df) r "cluster")) eqn:E; [reflexivity|].
  cbn [negb andb]. now rewrite (group_mean_matched_only df c v _ _ E).
Qed.

Lemma pivot_rows_notna df i c v r :
  In r (pivot_rows df i c v) -> isna (cell (columns df) r i) = false.
Proof.
  unfold pivot_rows. intros H. apply filter_In in H as [_ H].
  apply andb_true_iff in H as [H _]. apply andb_true_iff in H as [H _].
  now apply negb_true_iff.
Qed.

(** A pivot by cluster is the pivot of the rows that have a cluster. *)
Lemma pivot_table_mean_matched_only df c v p :
  pivot_table_mean df "cluster" c v = inr p ->
  pivot_table_mean (matched_only df) "cluster" c v = inr p.
Proof.
  intros Hp.
  destruct (pivot_table_mean (matched_only df) "cluster" c v) as [e|p'] eqn:Hp'.
  - exfalso. unfold pivot_table_mean in Hp, Hp'.
    destruct (getitem df v) as [e1|vals] eqn:Ev; [discriminate|].
    destruct (getitem df "cluster") as [e1|ik] eqn:Ei; [discriminate|].
    destruct (getitem df c) as [e1|ck] eqn:Ec; [discriminate|].
    cbn [exc_bind] in Hp.
    destruct (to_numeric v vals) as [e1|nums] eqn:En; [discriminate|].
    apply getitem_inr in Ev as [Hv ->], Ei as [Hi _], Ec as [Hc _].
    apply to_numeric_inr in En as [Hn _].
    rewrite (getitem_ok (matched_only df) v Hv),
      (getitem_ok (matched_only df) "cluster" Hi),
      (getitem_ok (matched_only df) c Hc) in Hp'.
    cbn [exc_bind] in Hp'. rewrite to_numeric_ok in Hp'; [discriminate|].
    cbn [columns rows matched_only]. rewrite forallb_map_comp.
    rewrite forallb_map_comp in Hn. now apply forallb_filter.
  - apply pivot_table_mean_inr in Hp, Hp'. f_equal. rewrite Hp, Hp'.
    rewrite pivot_rows_matched_only. cbn [columns matched_only].
    f_equal. apply map_ext_in. intros a Ha. apply map_ext. intros b.
    apply group_mean_matched_only.
    apply sorted_unique_In in Ha. apply in_map_iff in Ha as (r & <- & Hr).
    now apply pivot_rows_notna in Hr.
Qed.

Lemma pivot_index_notna df i c v p :
  pivot_table_mean df i c v = inr p -> existsb (value_eqb NaN) (p_index p) = false.
Proof.
  intros Hp. apply pivot_table_mean_inr in Hp. rewrite Hp. cbn [p_index].
  destruct (existsb _ _) eqn:E; [|reflexivity].
  apply existsb_exists in E as (a & Ha & Ea).
  apply sorted_unique_In in Ha. apply in_map_iff in Ha as (r & <- & Hr).
  apply pivot_rows_notna in Hr. destruct (cell (columns df) r i); discriminate.
Qed.

(** C10. On well-formed tables the heatmap the dashboard shows is the
    pivot of the joined table without the rows whose cluster is missing:
    the trades of accounts without profile reach no cell, and no row of
    the heatmap is labelled by a missing cluster. The same trades are
    still in the filtered trades and counted in [total_trades], which
    looks at the classification only. *)
Theorem unmatched_trades_not_in_heatmap h m t mg tf S C :
  nth_error h m = Some mg -> nth_error h t = Some tf ->
  trade_schema mg = true -> profile_schema tf = true ->
  exists v h' heat,
    dashboard m t S C h = (inr v, h') /\
    pivot_table_mean (matched_only mg) "cluster" "classification" "win" = inr heat /\
    heatmap_data v = pivot_times100 heat /\
    (forall s, pivot_at (heatmap_data v) NaN s = None) /\
    rows (filtered_merged v) = rows_in mg "classification" S /\
    total_trades v = length (rows_in mg "classification" S).
Proof.
  intros Hm Ht Hmg Htf.
  destruct (dashboard_run h m t mg tf S C Hm Ht Hmg Htf) as (v & new & Hrun & Htr).
  open_trace Htr.
  exists v, (h ++ new), heat. split; [exact Hrun|].
  split; [now apply pivot_table_mean_matched_only|].
  subst v. cbn [heatmap_data filtered_merged total_trades].
  split; [reflexivity|]. split.
  - intros s. rewrite pivot_at_times100, (pivot_at_cell _ _ _ _ _ NaN s Eheat).
    now rewrite (pivot_index_notna _ _ _ _ _ Eheat).
  - apply getitem_inr in Ecls as [_ ->]. cbn [rows getitem_mask].
    rewrite rows_mask_isin. now split.
Qed.

Lemma unmatched_trades_not_in_heatmap_witness :
  exists v h' heat,
    dashboard 0 1 [Str "Fear"] [Num 0] [ex_merged; ex_profiles] = (inr v, h') /\
    pivot_table_mean (matched_only ex_merged) "cluster" "classification" "win"
    = inr heat /\
    heatmap_data v = pivot_times100 heat /\
    (forall s, pivot_at (heatmap_data v) NaN s = None) /\
    rows (filtered_merged v) = rows_in ex_merged "classification" [Str "Fear"] /\
    total_trades v = length (rows_in ex_merged "classification" [Str "Fear"]).
Proof.
  apply (unmatched_trades_not_in_heatmap [ex_merged; ex_profiles] 0 1
           ex_merged ex_profiles [Str "Fear"] [Num 0]); reflexivity.
Defined.

(** ** Stable sorting by insertion *)

Section Sorting.

Variable X : Type.
Variable leb : X -> X -> bool.
Variable ok : X -> bool.

Hypothesis leb_total : forall a b, leb a b = false -> leb b a = true.
Hypothesis leb_trans :
  forall a b c, ok a = true -> ok b = true -> ok c = true ->
                leb a b = true -> leb b c = true -> leb a c = true.

Lemma insert_by_Sorted a l :
  Sorted (fun a b => leb a b = true) l ->
  Sorted (fun a b => leb a b = true) (insert_by leb a l).
Proof.
  induction l as [|b l IH]; intros Hs.
  - repeat constructor.
  - cbn. destruct (leb a b) eqn:E.
    + constructor; [assumption|]. now constructor.
    + apply Sorted_inv in Hs as [Hs Hb]. constructor; [now apply IH|].
      destruct l as [|c l]; cbn.
      * constructor. now apply leb_total.
      * destruct (leb a c); constructor; [now apply leb_total|].
        now apply HdRel_inv in Hb.
Qed.

Lemma sort_by_Sorted l : Sorted (fun a b => leb a b = true) (sort_by leb l).
Proof.
  induction l as [|a l IH]; [constructor|]. cbn. now apply insert_by_Sorted.
Qed.

Lemma insert_by_StronglySorted a l :
  ok a = true -> forallb ok l = true ->
  StronglySorted (fun a b => leb a b = true) l ->
  StronglySorted (fun a b => leb a b = true) (insert_by leb a l).
Proof.
  intros Ha. induction l as [|b l IH]; intros Hok Hs.
  - repeat constructor.
  - cbn [forallb] in Hok. apply andb_true_iff in Hok as [Hb Hl].
    apply StronglySorted_inv in Hs as [Hs Hbl].
    cbn. destruct (leb a b) eqn:E.
    + constructor; [now constructor|].
      constructor; [exact E|].
      rewrite Forall_forall in Hbl |- *. intros c Hc.
      rewrite forallb_forall in Hl.
      apply (leb_trans a b c); auto.
    + constructor; [now apply IH|].
      rewrite Forall_forall in Hbl |- *. intros c Hc.
      apply (Permutation_in _ (insert_by_perm leb a l)) in Hc.
      destruct Hc as [<-|Hc]; [now apply leb_total|now apply Hbl].
Qed.

Lemma forallb_perm (f : X -> bool) l l' :
  Permutation l l' -> forallb f l = true -> forallb f l' = true.
Proof.
  intros Hp H. rewrite forallb_forall in H |- *. intros x Hx. apply H.
  eapply Permutation_in; [symmetry|]; eassumption.
Qed.

Lemma sort_by_StronglySorted l :
  forallb ok l = true ->
  StronglySorted (fun a b => leb a b = true) (sort_by leb l).
Proof.
  induction l as [|a l IH]; [constructor|].
  cbn [forallb sort_by]. intros H. apply andb_true_iff in H as [Ha Hl].
  apply insert_by_StronglySorted; [assumption| |now apply IH].
  apply (forallb_perm ok l); [symmetry; apply sort_by_perm|assumption].
Qed.

(** Stability: the elements of a class whose members are mutually
    [leb] keep their order. *)
Lemma insert_by_stable (f : X -> bool) a l :
  (forall x y, f x = true -> f y = true -> leb x y = true) ->
  filter f (insert_by leb a l) = filter f (a :: l).
Proof.
  intros Hf. induction l as [|b l IH]; [reflexivity|].
  cbn [insert_by]. destruct (leb a b) eqn:E; [reflexivity|].
  cbn [filter] in *. rewrite IH.
  destruct (f a) eqn:Fa, (f b) eqn:Fb; try reflexivity.
  rewrite (Hf a b Fa Fb) in E. discriminate.
Qed.

Lemma sort_by_stable (f : X -> bool) l :
  (forall x y, f x = true -> f y = true -> leb x y = true) ->
  filter f (sort_by leb l) = filter f l.
Proof.
  intros Hf. induction l as [|a l IH]; [reflexivity|].
  cbn [sort_by]. rewrite insert_by_stable by exact Hf.
  cbn [filter]. now rewrite IH.
Qed.

End Sorting.

Lemma filter_firstn_prefix {X} (f : X -> bool) n l :
  exists k, filter f (firstn n l) = firstn k (filter f l).
Proof.
  revert n. induction l as [|x l IH]; intros n.
  - exists 0. now destruct n.
  - destruct n as [|n]; [now exists 0|].
    destruct (IH n) as (k & Hk). cbn [firstn filter].
    destruct (f x); [exists (S k); cbn; now rewrite Hk|now exists k].
Qed.

Lemma In_firstn {X} n (l : list X) x : In x (firstn n l) -> In x l.
Proof.
  intros H. rewrite <- (firstn_skipn n l). apply in_or_app. now left.
Qed.

Lemma In_skipn {X} n (l : list X) x : In x (skipn n l) -> In x l.
Proof.
  intros H. rewrite <- (firstn_skipn n l). apply in_or_app. now right.
Qed.

Lemma StronglySorted_firstn {X} (R : X -> X -> Prop) n l :
  StronglySorted R l -> StronglySorted R (firstn n l).
Proof.
  revert n. induction l as [|x l IH]; intros n Hs; [now destruct n|].
  destruct n as [|n]; [constructor|].
  apply StronglySorted_inv in Hs as [Hs Hx]. cbn. constructor; [now apply IH|].
  rewrite Forall_forall in Hx |- *. intros y Hy. apply Hx.
  eapply In_firstn. eassumption.
Qed.

(** In a sorted list, what is cut off comes after what is kept. *)
Lemma StronglySorted_firstn_skipn {X} (R : X -> X -> Prop) n l x y :
  StronglySorted R l -> In x (firstn n l) -> In y (skipn n l) -> R x y.
Proof.
  revert n. induction l as [|a l IH]; intros n Hs Hx Hy; [now destruct n|].
  destruct n as [|n]; [contradiction|].
  apply StronglySorted_inv in Hs as [Hs Ha]. cbn in Hx, Hy.
  destruct Hx as [<-|Hx]; [|now apply (IH n)].
  rewrite Forall_forall in Ha. apply Ha. eapply In_skipn. exact Hy.
Qed.

(** ** Top traders per cluster *)

Lemma desc_leb_total a b : desc_leb a b = false -> desc_leb b a = true.
Proof.
  destruct a, b; cbn; try discriminate; try reflexivity.
  intros H. apply Qle_bool_iff. apply Qlt_le_weak, Qnot_le_lt.
  intros Hle. apply Qle_bool_iff in Hle. congruence.
Qed.

Lemma desc_leb_trans a b c :
  is_numeric a = true -> is_numeric b = true -> is_numeric c = true ->
  desc_leb a b = true -> desc_leb b c = true -> desc_leb a c = true.
Proof.
  destruct a, b, c; cbn; try discriminate; try reflexivity.
  intros _ _ _ H1 H2. apply Qle_bool_iff in H1, H2. apply Qle_bool_iff.
  now apply Qle_trans with x0.
Qed.

Lemma value_leb_total a b : value_leb a b = false -> value_leb b a = true.
Proof.
  destruct a, b; cbn; try discriminate; try reflexivity.
  - intros H. destruct (String.leb_total s s0); congruence.
  - intros H. apply Qle_bool_iff. apply Qlt_le_weak, Qnot_le_lt.
    intros Hle. apply Qle_bool_iff in Hle. congruence.
  - intros H. apply Qle_bool_iff. apply Qlt_le_weak, Qnot_le_lt.
    intros Hle. apply Qle_bool_iff in Hle. congruence.
Qed.

Lemma exc_map_inr_map {X Y Z} (f : X -> Exc Y) (g : Y -> Z) (k : X -> Z) l ys :
  (forall x y, In x l -> f x = inr y -> g y = k x) ->
  exc_map f l = inr ys -> map g ys = map k l.
Proof.
  revert ys. induction l as [|x l IH]; intros ys H.
  - cbn. intros E. now injection E as <-.
  - cbn [exc_map]. destruct (f x) as [e|y] eqn:Ey; [discriminate|]. cbn [exc_bind].
    destruct (exc_map f l) as [e|ys'] eqn:El; [discriminate|]. cbn [exc_bind].
    intros E. injection E as <-. cbn [map].
    rewrite (H x y (or_introl eq_refl) Ey). f_equal.
    apply IH; [|reflexivity]. intros x' y' Hx'. apply H. now right.
Qed.

Lemma nlargest_inr n c df part :
  nlargest n c df = inr part ->
  columns part = columns df /\
  rows part = firstn n (sort_by (fun r1 r2 => desc_leb (cell (columns df) r1 c)
                                                       (cell (columns df) r2 c))
                                (rows df)).
Proof.
  unfold nlargest. destruct (getitem df c) as [e|vals]; [discriminate|].
  cbn [exc_bind]. destruct (to_numeric c vals) as [e|xs]; [discriminate|].
  cbn [exc_bind]. intros H. injection H as <-. now split.
Qed.

Lemma groupby_apply_nlargest_inr tf top :
  categoricals tf = [] ->
  groupby_apply tf "cluster" (nlargest 5 "total_pnl") = inr top ->
  columns top = columns tf /\
  rows top
  = concat (map (fun k => firstn 5 (sort_by (pnl_desc (columns tf)) (cluster_rows tf k)))
                (sort_by value_leb
                   (unique (filter (fun v => negb (isna v))
                                   (map (fun r => cell (columns tf) r "cluster")
                                        (rows tf)))))).
Proof.
  intros Hcat. unfold groupby_apply.
  destruct (getitem tf "cluster") as [e|keys] eqn:Ek; [discriminate|].
  apply getitem_inr in Ek as [_ ->]. cbn [exc_bind].
  destruct (exc_map _ _) as [e|parts] eqn:Ep; [discriminate|]. cbn [exc_bind].
  intros H. injection H as <-. cbn [columns rows]. split; [reflexivity|].
  f_equal. unfold group_keys in Ep. rewrite Hcat in Ep. cbn [assoc] in Ep.
  apply (exc_map_inr_map _ rows
           (fun k => firstn 5 (sort_by (pnl_desc (columns tf)) (cluster_rows tf k))))
    in Ep; [exact Ep|].
  intros k part _ Hpart. apply nlargest_inr in Hpart as [_ ->].
  cbn [columns rows getitem_mask]. rewrite map_map.
  now rewrite (select_map_filter
                 (fun r => value_eqb k (cell (columns tf) r "cluster"))).
Qed.

(** No key occurs twice among the first occurrences. *)
Lemma unique_by_distinct l seen c :
  (existsb (value_eqb c) seen = true ->
   filter (value_eqb c) (unique_by value_eqb l seen) = []) /\
  length (filter (value_eqb c) (unique_by value_eqb l seen)) <= 1.
Proof.
  revert seen. induction l as [|y l IH]; intros seen; [cbn; split; [reflexivity|lia]|].
  cbn [unique_by]. destruct (existsb (value_eqb y) seen) eqn:Ey; [apply IH|].
  cbn [filter]. destruct (value_eqb c y) eqn:Ecy.
  - split.
    + intros Hs. exfalso. apply existsb_exists in Hs as (z & Hz & Ecz).
      assert (existsb (value_eqb y) seen = true); [|congruence].
      apply existsb_exists. exists z. split; [assumption|].
      rewrite value_eqb_sym in Ecy. now apply value_eqb_trans with c.
    + destruct (IH (y :: seen)) as [H0 _]. rewrite H0; [cbn; lia|].
      cbn [existsb]. now rewrite Ecy.
  - destruct (IH (y :: seen)) as [H0 H1]. split; [|exact H1].
    intros Hs. apply H0. cbn [existsb]. rewrite Hs. apply orb_true_r.
Qed.

Lemma filter_length_perm {X} (f : X -> bool) l l' :
  Permutation l l' -> length (filter f l) = length (filter f l').
Proof.
  induction 1; cbn; try congruence.
  - destruct (f x); cbn; congruence.
  - destruct (f x), (f y); reflexivity.
Qed.

Lemma Forall2_map_r {X Y} (P : X -> Y -> Prop) (f : X -> Y) l :
  (forall x, In x l -> P x (f x)) -> Forall2 P l (map f l).
Proof.
  induction l as [|x l IH]; intros H; [constructor|].
  cbn. constructor; [apply H; now left|]. apply IH. intros; apply H. now right.
Qed.

Lemma value_eqb_desc_leb u v : value_eqb u v = true -> desc_leb u v = true.
Proof.
  destruct u, v; cbn; try discriminate; try reflexivity.
  intros H. apply Qeq_bool_iff in H. apply Qle_bool_iff. rewrite H. apply Qle_refl.
Qed.

(** The block of one cluster: the first five of its traders by
    decreasing [total_pnl], ties in table order. *)
Lemma top_block tf k :
  numeric_column tf "total_pnl" = true ->
  let G := cluster_rows tf k in
  let block := firstn 5 (sort_by (pnl_desc (columns tf)) G) in
  length block = min 5 (length G) /\
  StronglySorted (fun r1 r2 => pnl_desc (columns tf) r1 r2 = true) block /\
  (exists rest,
      Permutation G (block ++ rest) /\
      forall r r', In r block -> In r' rest -> pnl_desc (columns tf) r r' = true) /\
  (forall x, exists n,
      filter (same_pnl (columns tf) x) block
      = firstn n (filter (same_pnl (columns tf) x) G)).
Proof.
  intros Hnum G block.
  assert (Htot : forall a b, pnl_desc (columns tf) a b = false ->
                             pnl_desc (columns tf) b a = true).
  { intros a b. apply desc_leb_total. }
  assert (Htr : forall a b c,
             is_numeric (cell (columns tf) a "total_pnl") = true ->
             is_numeric (cell (columns tf) b "total_pnl") = true ->
             is_numeric (cell (columns tf) c "total_pnl") = true ->
             pnl_desc (columns tf) a b = true -> pnl_desc (columns tf) b c = true ->
             pnl_desc (columns tf) a c = true).
  { intros a b c. apply desc_leb_trans. }
  assert (Hok : forallb (fun r => is_numeric (cell (columns tf) r "total_pnl")) G = true).
  { unfold numeric_column in Hnum. apply andb_true_iff in Hnum as [_ Hnum].
    now apply forallb_filter. }
  pose proof (sort_by_StronglySorted _ _ _ Htot Htr G Hok) as Hss.
  split; [|split; [|split]].
  - subst block. rewrite length_firstn.
    now rewrite (Permutation_length (sort_by_perm (pnl_desc (columns tf)) G)).
  - now apply StronglySorted_firstn.
  - exists (skipn 5 (sort_by (pnl_desc (columns tf)) G)). split.
    + subst block. rewrite firstn_skipn. symmetry. apply sort_by_perm.
    + intros r r' Hr Hr'.
      exact (StronglySorted_firstn_skipn
               (fun a b => pnl_desc (columns tf) a b = true) 5
               (sort_by (pnl_desc (columns tf)) G) r r' Hss Hr Hr').
  - intros x. subst block.
    destruct (filter_firstn_prefix (same_pnl (columns tf) x) 5
                (sort_by (pnl_desc (columns tf)) G)) as (n & Hn).
    exists n. rewrite Hn. f_equal. apply sort_by_stable.
    intros a b Ha Hb. unfold same_pnl in Ha, Hb. apply value_eqb_desc_leb.
    rewrite value_eqb_sym in Ha. now apply value_eqb_trans with x.
Qed.

(** The group keys of the trader table: its distinct clusters, in
    increasing order. *)
Lemma cluster_keys_spec tf :
  let keys := sort_by value_leb
                (unique (filter (fun v => negb (isna v))
                                (map (fun r => cell (columns tf) r "cluster")
                                     (rows tf)))) in
  Sorted (fun a b => value_leb a b = true) keys /\
  (forall c, length (filter (value_eqb c) keys) <= 1) /\
  (forall c, isna c = false ->
             (existsb (value_eqb c) keys = true <-> cluster_rows tf c <> [])).
Proof.
  intros keys. split; [|split].
  - apply sort_by_Sorted. apply value_leb_total.
  - intros c. subst keys.
    rewrite (filter_length_perm _ _ _ (sort_by_perm value_leb _)).
    apply unique_by_distinct.
  - intros c Hc. split.
    + intros H. apply existsb_exists in H as (k & Hk & Eck).
      apply sorted_unique_In in Hk. apply filter_In in Hk as [Hk _].
      apply in_map_iff in Hk as (r & <- & Hr).
      assert (Hin : In r (cluster_rows tf c)) by (apply filter_In; now split).
      intros E. rewrite E in Hin. contradiction.
    + intros Hne. destruct (cluster_rows tf c) as [|r G] eqn:E; [congruence|].
      assert (Hr : In r (cluster_rows tf c)) by (rewrite E; now left).
      apply filter_In in Hr as [Hr Ecr].
      apply sorted_unique_complete. apply existsb_exists.
      exists (cell (columns tf) r "cluster"). split; [|assumption].
      apply filter_In. split.
      * now apply (in_map (fun r => cell (columns tf) r "cluster")).
      * now rewrite (value_eqb_notna _ _ Ecr Hc).
Qed.

(** C6. On well-formed tables the dashboard completes and the top-traders
    table is computed from the whole trader table alone (the selections
    play no part). Its rows are the concatenation of one block per
    cluster, the clusters being the distinct non-missing clusters of the
    table taken once each in increasing order. The block of a cluster
    holds 5 of its traders, or all of them when there are fewer, sorted by
    decreasing [total_pnl]; every trader of the cluster left out has a
    [total_pnl] no larger than those kept; and traders with the same
    [total_pnl] are kept in table order, the earliest first. *)
Theorem top_traders_per_cluster h m t mg tf S C :
  nth_error h m = Some mg -> nth_error h t = Some tf ->
  trade_schema mg = true -> profile_schema tf = true ->
  exists v h' keys blocks,
    dashboard m t S C h = (inr v, h') /\
    groupby_apply tf "cluster" (nlargest 5 "total_pnl") = inr (top_traders v) /\
    columns (top_traders v) = columns tf /\
    rows (top_traders v) = concat blocks /\
    Sorted (fun a b => value_leb a b = true) keys /\
    (forall c, length (filter (value_eqb c) keys) <= 1) /\
    (forall c, isna c = false ->
               (existsb (value_eqb c) keys = true <-> cluster_rows tf c <> [])) /\
    Forall2
      (fun k block =>
         length block = min 5 (length (cluster_rows tf k)) /\
         StronglySorted (fun r1 r2 => pnl_desc (columns tf) r1 r2 = true) block /\
         (exists rest,
             Permutation (cluster_rows tf k) (block ++ rest) /\
             forall r r', In r block -> In r' rest ->
                          pnl_desc (columns tf) r r' = true) /\
         (forall x, exists n,
             filter (same_pnl (columns tf) x) block
             = firstn n (filter (same_pnl (columns tf) x) (cluster_rows tf k))))
      keys blocks.
Proof.
  intros Hm Ht Hmg Htf.
  destruct (dashboard_run h m t mg tf S C Hm Ht Hmg Htf) as (v & new & Hrun & Htr).
  open_trace Htr.
  unfold profile_schema in Htf. split_andb.
  assert (Hcat : categoricals tf = []) by now apply no_categorical_nil.
  destruct (groupby_apply_nlargest_inr tf top Hcat Etop) as [Hcols Hrows].
  destruct (cluster_keys_spec tf) as (Hsorted & Hdistinct & Hcomplete).
  eexists v, (h ++ new), _, _. split; [exact Hrun|].
  subst v. cbn [top_traders].
  split; [exact Etop|]. split; [exact Hcols|]. split; [exact Hrows|].
  split; [exact Hsorted|]. split; [exact Hdistinct|]. split; [exact Hcomplete|].
  apply Forall2_map_r. intros k _. now apply top_block.
Qed.

Lemma top_traders_per_cluster_witness :
  exists v h' keys blocks,
    dashboard 0 1 [Str "Fear"] [Num 0] [ex_merged; ex_profiles] = (inr v, h') /\
    groupby_apply ex_profiles "cluster" (nlargest 5 "total_pnl")
    = inr (top_traders v) /\
    columns (top_traders v) = columns ex_profiles /\
    rows (top_traders v) = concat blocks /\
    Sorted (fun a b => value_leb a b = true) keys /\
    (forall c, length (filter (value_eqb c) keys) <= 1) /\
    (forall c, isna c = false ->
               (existsb (value_eqb c) keys = true <-> cluster_rows ex_profiles c <> [])) /\
    Forall2
      (fun k block =>
         length block = min 5 (length (cluster_rows ex_profiles k)) /\
         StronglySorted (fun r1 r2 => pnl_desc (columns ex_profiles) r1 r2 = true)
                        block /\
         (exists rest,
             Permutation (cluster_rows ex_profiles k) (block ++ rest) /\
             forall r r', In r block -> In r' rest ->
                          pnl_desc (columns ex_profiles) r r' = true) /\
         (forall x, exists n,
             filter (same_pnl (columns ex_profiles) x) block
             = firstn n (filter (same_pnl (columns ex_profiles) x)
                                (cluster_rows ex_profiles k))))
      keys blocks.
Proof.
  apply (top_traders_per_cluster [ex_merged; ex_profiles] 0 1
           ex_merged ex_profiles [Str "Fear"] [Num 0]); reflexivity.
Defined.

(** ** Quantiles of a sorted list *)











(** ** Bin edges: distinct quantiles *)

















(** ** Bins of a value *)












(** ** Trade-size bins *)



Lemma map_fst_scale s : map fst (scale s) = map fst s.
Proof. unfold scale. rewrite map_map. reflexivity. Qed.




(** ** The example, run *)

(** The whole script on the small data set, with every sentiment and
    every cluster selected. The trade of account Z, which has no profile,
    is counted in the KPIs and binned by size, and is absent from the
    heatmap. *)
Example ex_main_all :
  match fst (main ex_fs [Str "Fear"; Str "Greed"] [Num 0; Num 1] []) with
  | inr v =>
      total_trades v = 4 /\
      total_pnl v = 105%Q /\
      overall_win_rate v = Some (200 # 4)%Q /\
      size_bin v = [Ivl (199996 # 4000) (290 # 4); Ivl (290 # 4) (400 # 4);
                    Ivl (400 # 4) (560 # 4); Ivl (560 # 4) (800 # 4)] /\
      rows (top_traders v) = [[Str "A"; Num 0; Num 10; Num 60; Num 500];
                              [Str "B"; Num 1; Num 5; Num 30; Num (-200)]] /\
      heatmap_data v = {| p_index := [Num 0; Num 1];
                          p_columns := [Str "Fear"; Str "Greed"];
                          p_values := [[Some 100%Q; Some 100%Q]; [None; Some 0%Q]] |}
  | inl _ => False
  end.
Proof. vm_compute. repeat split; reflexivity. Qed.

(** Two trades of different sizes: four bins, the two in the middle
    empty. *)
Example ex_main_greed :
  match fst (main ex_fs [Str "Greed"] [Num 0; Num 1] []) with
  | inr v =>
      size_bin v = [Ivl (319996 # 4000) (360 # 4); Ivl (440 # 4) (480 # 4)] /\
      size_win v = [(Ivl (319996 # 4000) (360 # 4), Some 0%Q);
                    (Ivl (360 # 4) (400 # 4), None);
                    (Ivl (400 # 4) (440 # 4), None);
                    (Ivl (440 # 4) (480 # 4), Some 100%Q)]
  | inl _ => False
  end.
Proof. vm_compute. repeat split; reflexivity. Qed.

(** A trade file without [classification]: the load succeeds and the
    first line of the dashboard raises. *)
Example ex_main_bare :
  fst (main ex_bare_fs [Str "Fear"] [Num 0] []) = inl (KeyError "classification").
Proof. reflexivity. Qed.

(** ** The profile filter and the sidebar options *)

(** X1. On well-formed tables the filtered profiles (line 53) are exactly
    the rows of the trader table whose cluster is among the selected
    clusters, in table order; the sentiment selection plays no part, and
    the header is the one of the trader table. *)
Theorem filtered_profiles_by_cluster h m t mg tf S C :
  nth_error h m = Some mg -> nth_error h t = Some tf ->
  trade_schema mg = true -> profile_schema tf = true ->
  exists v h',
    dashboard m t S C h = (inr v, h') /\
    columns (filtered_clusters v) = columns tf /\
    rows (filtered_clusters v) = rows_in tf "cluster" C /\
    (forall r, In r (rows (filtered_clusters v)) <->
               In r (rows tf) /\
               existsb (value_eqb (cell (columns tf) r "cluster")) C = true).
Proof.
  intros Hm Ht Hmg Htf.
  destruct (dashboard_run h m t mg tf S C Hm Ht Hmg Htf) as (v & new & Hrun & Htr).
  exists v, (h ++ new). split; [exact Hrun|].
  open_trace Htr. apply getitem_inr in Ecl as [_ ->]. subst v.
  cbn [filtered_clusters columns rows getitem_mask]. rewrite rows_mask_isin.
  split; [reflexivity|]. split; [reflexivity|].
  intros r. unfold rows_in. rewrite filter_In. reflexivity.
Qed.

Lemma filtered_profiles_by_cluster_witness :
  exists v h',
    dashboard 0 1 [Str "Fear"] [Num 0] [ex_merged; ex_profiles] = (inr v, h') /\
    columns (filtered_clusters v) = columns ex_profiles /\
    rows (filtered_clusters v) = rows_in ex_profiles "cluster" [Num 0] /\
    (forall r, In r (rows (filtered_clusters v)) <->
               In r (rows ex_profiles) /\
               existsb (value_eqb (cell (columns ex_profiles) r "cluster")) [Num 0]
               = true).
Proof.
  apply (filtered_profiles_by_cluster [ex_merged; ex_profiles] 0 1
           ex_merged ex_profiles [Str "Fear"] [Num 0]); reflexivity.
Defined.

Lemma filter_all {X} (f : X -> bool) l :
  (forall x, In x l -> f x = true) -> filter f l = l.
Proof.
  induction l as [|x l IH]; intros H; [reflexivity|].
  cbn. rewrite (H x (or_introl eq_refl)). f_equal. apply IH.
  intros y Hy. apply H. now right.
Qed.

Lemma unique_complete l v :
  existsb (value_eqb v) l = true -> existsb (value_eqb v) (unique l) = true.
Proof.
  intros H. destruct (unique_by_complete l [] v H) as [H'|H']; [discriminate|exact H'].
Qed.

(** Selecting every option of a column selects every row. *)
Lemma rows_in_unique df c :
  rows_in df c (unique (map (fun r => cell (columns df) r c) (rows df))) = rows df.
Proof.
  unfold rows_in. apply filter_all. intros r Hr. apply unique_complete.
  apply existsb_exists. exists (cell (columns df) r c).
  split; [|apply value_eqb_refl].
  now apply (in_map (fun r => cell (columns df) r c)).
Qed.

(** X2. The options offered in the sidebar (lines 38 and 45) are the
    distinct values of the [classification] column of the joined table and
    of the [cluster] column of the trader table: every cell of the column
    has an equal option, every option is a cell of the column, and no two
    options are equal. They do not depend on the selections. With the
    default selections, which are all the options, the filtered trades and
    the filtered profiles are the whole tables. *)
Theorem options_cover_tables h m t mg tf S C v h' :
  nth_error h m = Some mg -> nth_error h t = Some tf ->
  dashboard m t S C h = (inr v, h') ->
  sentiment_options v
  = unique (map (fun r => cell (columns mg) r "classification") (rows mg)) /\
  cluster_options v
  = unique (map (fun r => cell (columns tf) r "cluster") (rows tf)) /\
  (forall r, In r (rows mg) ->
     existsb (value_eqb (cell (columns mg) r "classification")) (sentiment_options v)
     = true) /\
  (forall o, In o (sentiment_options v) ->
     exists r, In r (rows mg) /\ cell (columns mg) r "classification" = o) /\
  (forall x, length (filter (value_eqb x) (sentiment_options v)) <= 1) /\
  (forall r, In r (rows tf) ->
     existsb (value_eqb (cell (columns tf) r "cluster")) (cluster_options v) = true) /\
  (forall o, In o (cluster_options v) ->
     exists r, In r (rows tf) /\ cell (columns tf) r "cluster" = o) /\
  (forall x, length (filter (value_eqb x) (cluster_options v)) <= 1) /\
  (S = sentiment_options v -> rows (filtered_merged v) = rows mg) /\
  (C = cluster_options v -> rows (filtered_clusters v) = rows tf).
Proof.
  intros Hm Ht Hrun.
  destruct (dashboard_inv h m t mg tf S C v h' Hm Ht Hrun) as (new & _ & Htr).
  open_trace Htr.
  apply getitem_inr in Ecls as [_ ->], Ecl as [_ ->]. subst v.
  cbn [sentiment_options cluster_options filtered_merged filtered_clusters
       rows getitem_mask].
  rewrite !rows_mask_isin.
  split; [reflexivity|]. split; [reflexivity|].
  split.
  { intros r Hr. apply unique_complete. apply existsb_exists.
    exists (cell (columns mg) r "classification"). split; [|apply value_eqb_refl].
    now apply (in_map (fun r => cell (columns mg) r "classification")). }
  split.
  { intros o Ho. apply unique_by_In in Ho. apply in_map_iff in Ho as (r & <- & Hr).
    eauto. }
  split; [intros x; apply unique_by_distinct|].
  split.
  { intros r Hr. apply unique_complete. apply existsb_exists.
    exists (cell (columns tf) r "cluster"). split; [|apply value_eqb_refl].
    now apply (in_map (fun r => cell (columns tf) r "cluster")). }
  split.
  { intros o Ho. apply unique_by_In in Ho. apply in_map_iff in Ho as (r & <- & Hr).
    eauto. }
  split; [intros x; apply unique_by_distinct|].
  split; intros ->; apply rows_in_unique.
Qed.

Lemma options_cover_tables_witness :
  exists v h',
    dashboard 0 1 [Str "Fear"; Str "Greed"] [Num 0; Num 1] [ex_merged; ex_profiles]
    = (inr v, h') /\
    sentiment_options v = [Str "Fear"; Str "Greed"] /\
    cluster_options v = [Num 0; Num 1] /\
    rows (filtered_merged v) = rows ex_merged /\
    rows (filtered_clusters v) = rows ex_profiles.
Proof.
  destruct (dashboard 0 1 [Str "Fear"; Str "Greed"] [Num 0; Num 1]
              [ex_merged; ex_profiles]) as [[e|v] h'] eqn:Hrun.
  - vm_compute in Hrun. discriminate Hrun.
  - destruct (options_cover_tables [ex_merged; ex_profiles] 0 1 ex_merged ex_profiles
                [Str "Fear"; Str "Greed"] [Num 0; Num 1] v h' eq_refl eq_refl)
      as (Hs & Hc & _ & _ & _ & _ & _ & _ & Hall & Hallc).
    + exact Hrun.
    + exists v, h'. split; [reflexivity|].
      split; [exact Hs|]. split; [exact Hc|].
      split; [apply Hall; now rewrite Hs|apply Hallc; now rewrite Hc].
Defined.

(** ** Which selection each view depends on *)

Ltac open_trace_anon H :=
  destruct H as (? & ? & ? & ? & ? & ? & ? & ? & ? & ? & ? & ? & ? & ? & ? & H);
  cbv zeta in H;
  destruct H as (? & ? & ? & ? & ? & ? & ? & ? & ? & ? & ? & ? & ? & ? & ? & ? & ?).

Ltac same_results :=
  repeat match goal with
         | H1 : ?f = inr ?a, H2 : ?f = inr ?b |- _ =>
             assert (b = a) by congruence; subst b; clear H2
         end.

(** X3. Each view depends on its own selection only. Two completed runs on
    the same tables agree on the sidebar options, on the top traders and on
    the heatmap whatever the selections; when their sentiment selections
    are equal they agree on the filtered trades, the three KPIs and the
    win rates by sentiment, side and size, whatever the cluster
    selections; when their cluster selections are equal they agree on the
    filtered profiles and on the cluster summary. *)
Theorem views_by_selection h m t mg tf S1 C1 S2 C2 v1 h1 v2 h2 :
  nth_error h m = Some mg -> nth_error h t = Some tf ->
  dashboard m t S1 C1 h = (inr v1, h1) ->
  dashboard m t S2 C2 h = (inr v2, h2) ->
  (sentiment_options v1 = sentiment_options v2 /\
   cluster_options v1 = cluster_options v2 /\
   top_traders v1 = top_traders v2 /\
   heatmap_data v1 = heatmap_data v2) /\
  (S1 = S2 ->
   filtered_merged v1 = filtered_merged v2 /\
   total_trades v1 = total_trades v2 /\
   total_pnl v1 = total_pnl v2 /\
   overall_win_rate v1 = overall_win_rate v2 /\
   win_rate v1 = win_rate v2 /\
   side_win v1 = side_win v2 /\
   size_bin v1 = size_bin v2 /\
   size_win v1 = size_win v2) /\
  (C1 = C2 ->
   filtered_clusters v1 = filtered_clusters v2 /\
   cluster_summary v1 = cluster_summary v2).
Proof.
  intros Hm Ht Hrun1 Hrun2.
  destruct (dashboard_inv h m t mg tf S1 C1 v1 h1 Hm Ht Hrun1) as (new1 & _ & Htr1).
  destruct (dashboard_inv h m t mg tf S2 C2 v2 h2 Hm Ht Hrun2) as (new2 & _ & Htr2).
  clear Hrun1 Hrun2.
  open_trace_anon Htr1. open_trace_anon Htr2.
  split; [|split].
  - same_results. subst v1 v2. cbn. repeat split; reflexivity.
  - intros <-. same_results. subst v1 v2. cbn. repeat split; reflexivity.
  - intros <-. same_results. subst v1 v2. cbn. repeat split; reflexivity.
Qed.

Lemma views_by_selection_witness :
  exists v1 v2 h1 h2,
    dashboard 0 1 [Str "Fear"] [Num 0] [ex_merged; ex_profiles] = (inr v1, h1) /\
    dashboard 0 1 [Str "Fear"] [Num 1] [ex_merged; ex_profiles] = (inr v2, h2) /\
    win_rate v1 = win_rate v2 /\ size_win v1 = size_win v2 /\
    heatmap_data v1 = heatmap_data v2.
Proof.
  destruct (dashboard 0 1 [Str "Fear"] [Num 0] [ex_merged; ex_profiles])
    as [[e1|v1] h1] eqn:Hrun1; [vm_compute in Hrun1; discriminate Hrun1|].
  destruct (dashboard 0 1 [Str "Fear"] [Num 1] [ex_merged; ex_profiles])
    as [[e2|v2] h2] eqn:Hrun2; [vm_compute in Hrun2; discriminate Hrun2|].
  destruct (views_by_selection [ex_merged; ex_profiles] 0 1 ex_merged ex_profiles
              [Str "Fear"] [Num 0] [Str "Fear"] [Num 1] v1 h1 v2 h2
              eq_refl eq_refl Hrun1 Hrun2) as ((_ & _ & _ & Hheat) & Hs & _).
  destruct (Hs eq_refl) as (_ & _ & _ & _ & Hw & _ & _ & Hz).
  exists v1, v2, h1, h2. repeat split; assumption.
Defined.

(** ** Which error a failed run raises *)


(** X5. The first column the dashboard misses decides its error. Line 38
    reads [classification] of the joined table before anything else, line
    45 reads [cluster] of the trader table, and both happen before the
    first table is built: the heap is the one the run started from. The
    next column needed is [closed_pnl] (line 62), asked of the filtered
    trades once both filtered tables exist. *)
Theorem dashboard_first_missing_column h m t mg tf S C :
  nth_error h m = Some mg -> nth_error h t = Some tf ->
  (has_column mg "classification" = false ->
   dashboard m t S C h = (inl (KeyError "classification"), h)) /\
  (has_column mg "classification" = true -> has_column tf "cluster" = false ->
   dashboard m t S C h = (inl (KeyError "cluster"), h)) /\
  (has_column mg "classification" = true -> has_column tf "cluster" = true ->
   has_column mg "closed_pnl" = false ->
   exists fm fc,
     dashboard m t S C h = (inl (KeyError "closed_pnl"), h ++ [fm; fc]) /\
     rows fm = rows_in mg "classification" S /\
     rows fc = rows_in tf "cluster" C).
Proof.
  intros Hm Ht.
  assert (Hstart : dashboard m t S C h = dashboard m t S C (h ++ []))
    by now rewrite app_nil_r.
  rewrite Hstart. clear Hstart.
  unfold dashboard, numeric_col, col, mask, cols, set_col.
  split; [|split].
  - intros Hcls. repeat step. rewrite bind_lift. unfold getitem at 1.
    rewrite Hcls. now rewrite app_nil_r.
  - intros Hcls Hc. repeat step.
    rewrite bind_lift, (getitem_ok mg "classification" Hcls).
    repeat step. rewrite bind_lift. unfold getitem at 1.
    rewrite Hc. now rewrite app_nil_r.
  - intros Hcls Hcl Hpnl. repeat step.
    rewrite bind_lift, (getitem_ok mg "classification" Hcls).
    repeat step. rewrite bind_lift, (getitem_ok tf "cluster" Hcl).
    repeat step. rewrite bind_lift, (getitem_ok mg "classification" Hcls).
    repeat step. rewrite bind_lift, (getitem_ok tf "cluster" Hcl).
    repeat step. rewrite bind_lift.
    unfold getitem at 1. unfold has_column in *. cbn [columns getitem_mask].
    rewrite Hpnl.
    eexists _, _. split; [reflexivity|].
    cbn [rows getitem_mask]. now rewrite !rows_mask_isin.
Qed.

Lemma dashboard_first_missing_column_witness :
  dashboard 1 0 [Str "Fear"] [Num 0] [ex_profiles; ex_bare_merged]
  = (inl (KeyError "classification"), [ex_profiles; ex_bare_merged]).
Proof.
  exact (proj1 (dashboard_first_missing_column [ex_profiles; ex_bare_merged] 1 0
                  ex_bare_merged ex_profiles [Str "Fear"] [Num 0] eq_refl eq_refl)
               eq_refl).
Defined.

(** ** The whole script *)





Lemma rectangular_In df r :
  rectangular df = true -> In r (rows df) -> length r = length (columns df).
Proof.
  unfold rectangular. intros H Hr.
  apply Nat.eqb_eq. revert r Hr. now apply forallb_forall.
Qed.









(** ** The join when [account] is not a unique key *)






(** ** Win rates by group *)

Lemma existsb_value_eqb_congr a b l :
  value_eqb a b = true -> existsb (value_eqb a) l = existsb (value_eqb b) l.
Proof.
  intros H. induction l as [|x l IH]; [reflexivity|].
  cbn [existsb]. now rewrite (value_eqb_congr a b x H), IH.
Qed.

(** The rows of one group, among the rows selected on the same column. *)
Lemma rows_with_selected df c S k :
  existsb (value_eqb k) S = true ->
  filter (fun r => value_eqb k (cell (columns df) r c)) (rows_in df c S)
  = rows_with df c k.
Proof.
  intros Hk. unfold rows_in, rows_with. rewrite filter_filter_and.
  apply filter_ext. intros r.
  destruct (value_eqb k (cell (columns df) r c)) eqn:E; [|apply andb_false_r].
  now rewrite <- (existsb_value_eqb_congr k _ S E), Hk.
Qed.

(** The keys of a group-by on a column that is not categorical: sorted,
    pairwise distinct, present, and covering every present cell. *)
Lemma group_keys_spec df by_ :
  assoc by_ (categoricals df) = None ->
  let keys := group_keys df by_ (map (fun r => cell (columns df) r by_) (rows df)) in
  Sorted (fun a b => value_leb a b = true) keys /\
  (forall c, length (filter (value_eqb c) keys) <= 1) /\
  (forall k, In k keys -> isna k = false /\ rows_with df by_ k <> []) /\
  (forall r, In r (rows df) -> isna (cell (columns df) r by_) = false ->
             existsb (value_eqb (cell (columns df) r by_)) keys = true).
Proof.
  intros Hcat. unfold group_keys. rewrite Hcat. cbv zeta.
  split; [|split; [|split]].
  - apply sort_by_Sorted. apply value_leb_total.
  - intros c. rewrite (filter_length_perm _ _ _ (sort_by_perm value_leb _)).
    apply unique_by_distinct.
  - intros k Hk. apply sorted_unique_In in Hk. apply filter_In in Hk as [Hk Hna].
    apply negb_true_iff in Hna. split; [exact Hna|].
    apply in_map_iff in Hk as (r & <- & Hr).
    assert (Hin : In r (rows_with df by_ (cell (columns df) r by_))).
    { apply filter_In. split; [exact Hr|apply value_eqb_refl]. }
    intros E. rewrite E in Hin. contradiction.
  - intros r Hr Hna. apply sorted_unique_complete. apply existsb_exists.
    exists (cell (columns df) r by_). split; [|apply value_eqb_refl].
    apply filter_In. split.
    + now apply (in_map (fun r => cell (columns df) r by_)).
    + now rewrite Hna.
Qed.

(** The entries of [df.groupby(by)[c].mean()]: one per key, holding the
    mean of [c] over the rows of the key. *)
Lemma groupby_mean_entries df by_ c res :
  groupby_mean df by_ c = inr res ->
  map fst res = group_keys df by_ (map (fun r => cell (columns df) r by_) (rows df)) /\
  (forall k x, In (k, x) res ->
     x = mean (map (fun r => float_of (cell (columns df) r c)) (rows_with df by_ k))).
Proof.
  intros H. apply groupby_mean_inr in H. subst res. split.
  - rewrite map_map. apply map_id.
  - intros k x Hin. apply in_map_iff in Hin as (k' & E & _).
    injection E as -> <-. rewrite map_map. f_equal.
    apply (select_map_mask (fun r => float_of (cell (columns df) r c))
             (fun r => value_eqb k (cell (columns df) r by_))).
Qed.

(** The win rate of every group of a table whose [win] column holds flags. *)
Lemma groupby_win df by_ res :
  assoc by_ (categoricals df) = None -> win_flags df = true ->
  groupby_mean df by_ "win" = inr res ->
  Sorted (fun a b => value_leb a b = true) (map fst (scale res)) /\
  (forall c, length (filter (value_eqb c) (map fst (scale res))) <= 1) /\
  (forall k x, In (k, x) (scale res) ->
     isna k = false /\ rows_with df by_ k <> [] /\
     exists q, x = Some q /\
               (q == win_share (columns df) (rows_with df by_ k))%Q /\
               (0 <= q <= 100)%Q) /\
  (forall r, In r (rows df) -> isna (cell (columns df) r by_) = false ->
             existsb (value_eqb (cell (columns df) r by_)) (map fst (scale res)) = true).
Proof.
  intros Hcat Hfl Hres.
  destruct (groupby_mean_entries df by_ "win" res Hres) as [Hkeys Hent].
  destruct (group_keys_spec df by_ Hcat) as (Hsorted & Hdist & Hin & Hall).
  rewrite map_fst_scale, Hkeys.
  split; [exact Hsorted|]. split; [exact Hdist|]. split; [|exact Hall].
  intros k x Hkx. unfold scale in Hkx. apply in_map_iff in Hkx as ([k' x'] & E & Hk).
  cbn [fst snd] in E. injection E as -> <-.
  assert (Hk' : In k (map fst res)) by (apply in_map_iff; exists (k, x'); now split).
  rewrite Hkeys in Hk'. destruct (Hin k Hk') as [Hna Hne].
  split; [exact Hna|]. split; [exact Hne|].
  rewrite (Hent k x' Hk).
  unfold win_flags in Hfl. apply andb_true_iff in Hfl as [_ Hfl].
  destruct (mean_flags (columns df) (rows_with df by_ k)) as (q & -> & Hq);
    [now apply forallb_filter|exact Hne|].
  exists (q * 100)%Q. split; [reflexivity|]. unfold win_share.
  split; [now rewrite Hq|]. rewrite Hq. apply ratio_bounds.
  - apply filter_length_le.
  - destruct (rows_with df by_ k); [congruence|discriminate].
Qed.

Lemma win_flags_mask df m : win_flags df = true -> win_flags (getitem_mask df m) = true.
Proof.
  unfold win_flags, has_column. cbn [columns rows getitem_mask].
  intros H. apply andb_true_iff in H as [-> H]. now apply forallb_select.
Qed.

(** X9. Win rate by sentiment (line 102). On well-formed tables whose
    [win] column holds the flags 0 and 1, the win-rate series has one
    entry per sentiment that is present, selected and carried by a trade,
    in increasing order and without repetition. The entry of a sentiment
    is 100 times the share of winning trades among all the trades of the
    joined table with that sentiment, a number between 0 and 100; a
    sentiment that is not selected has no entry. *)
Theorem win_rate_by_sentiment h m t mg tf S C :
  nth_error h m = Some mg -> nth_error h t = Some tf ->
  trade_schema mg = true -> profile_schema tf = true ->
  win_flags mg = true ->
  exists v h',
    dashboard m t S C h = (inr v, h') /\
    Sorted (fun a b => value_leb a b = true) (map fst (win_rate v)) /\
    (forall c, length (filter (value_eqb c) (map fst (win_rate v))) <= 1) /\
    (forall k x, In (k, x) (win_rate v) ->
       isna k = false /\ existsb (value_eqb k) S = true /\
       rows_with mg "classification" k <> [] /\
       exists q, x = Some q /\
                 (q == win_share (columns mg) (rows_with mg "classification" k))%Q /\
                 (0 <= q <= 100)%Q) /\
    (forall r, In r (rows mg) ->
       isna (cell (columns mg) r "classification") = false ->
       existsb (value_eqb (cell (columns mg) r "classification")) S = true ->
       existsb (value_eqb (cell (columns mg) r "classification"))
               (map fst (win_rate v)) = true).
Proof.
  intros Hm Ht Hmg Htf Hfl.
  destruct (dashboard_run h m t mg tf S C Hm Ht Hmg Htf) as (v & new & Hrun & Htr).
  exists v, (h ++ new). split; [exact Hrun|].
  open_trace Htr. apply getitem_inr in Ecls as [_ ->]. subst v. cbn [win_rate].
  unfold trade_schema in Hmg. split_andb.
  set (fm := getitem_mask mg _) in *.
  assert (Hrows : rows fm = rows_in mg "classification" S)
    by (unfold fm; cbn [rows getitem_mask]; apply rows_mask_isin).
  assert (Hcat : assoc "classification" (categoricals fm) = None).
  { unfold fm. cbn [categoricals getitem_mask].
    now rewrite (no_categorical_nil mg). }
  destruct (groupby_win fm "classification" by_sentiment Hcat
              (win_flags_mask mg _ Hfl) Eby_sentiment)
    as (Hsorted & Hdist & Hent & Hall).
  split; [exact Hsorted|]. split; [exact Hdist|]. split.
  - intros k x Hkx. destruct (Hent k x Hkx) as (Hna & Hne & q & Hx & Hq & Hb).
    assert (Hsel : existsb (value_eqb k) S = true).
    { destruct (rows_with fm "classification" k) as [|r0 G] eqn:E; [congruence|].
      assert (Hr0 : In r0 (rows_with fm "classification" k)) by (rewrite E; now left).
      apply filter_In in Hr0 as [Hr0 Ek]. rewrite Hrows in Hr0.
      apply filter_In in Hr0 as [_ Hs].
      now rewrite (existsb_value_eqb_congr k _ S Ek). }
    assert (Hgrp : rows_with fm "classification" k = rows_with mg "classification" k).
    { unfold rows_with at 1. rewrite Hrows.
      change (columns fm) with (columns mg). now apply rows_with_selected. }
    change (columns fm) with (columns mg) in Hq.
    rewrite Hgrp in Hne, Hq.
    split; [exact Hna|]. split; [exact Hsel|]. split; [exact Hne|].
    exists q. now repeat split.
  - intros r Hr Hna Hsel. apply (Hall r); [|exact Hna].
    rewrite Hrows. apply filter_In. now split.
Qed.

Lemma win_rate_by_sentiment_witness :
  exists v h',
    dashboard 0 1 [Str "Greed"] [Num 0] [ex_merged; ex_profiles] = (inr v, h') /\
    forall k x, In (k, x) (win_rate v) ->
      existsb (value_eqb k) [Str "Greed"] = true /\
      exists q, x = Some q /\ (0 <= q <= 100)%Q.
Proof.
  destruct (win_rate_by_sentiment [ex_merged; ex_profiles] 0 1 ex_merged ex_profiles
              [Str "Greed"] [Num 0] eq_refl eq_refl eq_refl eq_refl eq_refl)
    as (v & h' & Hrun & _ & _ & Hent & _).
  exists v, h'. split; [exact Hrun|].
  intros k x Hkx. destruct (Hent k x Hkx) as (_ & Hsel & _ & q & Hx & _ & Hb).
  split; [exact Hsel|]. exists q. now split.
Defined.

(** X10. Win rate by side (line 109). On the same tables the series has
    one entry per side carried by a filtered trade, in increasing order
    and without repetition, and the entry of a side is 100 times the share
    of winning trades among the filtered trades of that side, a number
    between 0 and 100. A side without filtered trade has no entry. *)
Theorem win_rate_by_side h m t mg tf S C :
  nth_error h m = Some mg -> nth_error h t = Some tf ->
  trade_schema mg = true -> profile_schema tf = true ->
  win_flags mg = true ->
  exists v h',
    dashboard m t S C h = (inr v, h') /\
    rows (filtered_merged v) = rows_in mg "classification" S /\
    Sorted (fun a b => value_leb a b = true) (map fst (side_win v)) /\
    (forall c, length (filter (value_eqb c) (map fst (side_win v))) <= 1) /\
    (forall k x, In (k, x) (side_win v) ->
       isna k = false /\ rows_with (filtered_merged v) "side" k <> [] /\
       exists q, x = Some q /\
                 (q == win_share (columns mg) (rows_with (filtered_merged v) "side" k))%Q /\
                 (0 <= q <= 100)%Q) /\
    (forall r, In r (rows (filtered_merged v)) ->
       isna (cell (columns mg) r "side") = false ->
       existsb (value_eqb (cell (columns mg) r "side")) (map fst (side_win v)) = true).
Proof.
  intros Hm Ht Hmg Htf Hfl.
  destruct (dashboard_run h m t mg tf S C Hm Ht Hmg Htf) as (v & new & Hrun & Htr).
  exists v, (h ++ new). split; [exact Hrun|].
  open_trace Htr. apply getitem_inr in Ecls as [_ ->]. subst v.
  cbn [side_win filtered_merged].
  unfold trade_schema in Hmg. split_andb.
  set (fm := getitem_mask mg _) in *.
  assert (Hrows : rows fm = rows_in mg "classification" S)
    by (unfold fm; cbn [rows getitem_mask]; apply rows_mask_isin).
  assert (Hcat : assoc "side" (categoricals fm) = None).
  { unfold fm. cbn [categoricals getitem_mask].
    now rewrite (no_categorical_nil mg). }
  destruct (groupby_win fm "side" by_side Hcat (win_flags_mask mg _ Hfl) Eby_side)
    as (Hsorted & Hdist & Hent & Hall).
  split; [exact Hrows|]. split; [exact Hsorted|]. split; [exact Hdist|].
  split; [exact Hent|exact Hall].
Qed.

Lemma win_rate_by_side_witness :
  exists v h',
    dashboard 0 1 [Str "Greed"] [Num 0] [ex_merged; ex_profiles] = (inr v, h') /\
    Sorted (fun a b => value_leb a b = true) (map fst (side_win v)) /\
    forall k x, In (k, x) (side_win v) -> exists q, x = Some q /\ (0 <= q <= 100)%Q.
Proof.
  destruct (win_rate_by_side [ex_merged; ex_profiles] 0 1 ex_merged ex_profiles
              [Str "Greed"] [Num 0] eq_refl eq_refl eq_refl eq_refl eq_refl)
    as (v & h' & Hrun & _ & Hsorted & _ & Hent & _).
  exists v, h'. split; [exact Hrun|]. split; [exact Hsorted|].
  intros k x Hkx. destruct (Hent k x Hkx) as (_ & _ & q & Hx & _ & Hb).
  exists q. now split.
Defined.

(** ** The size bins as a column *)

Lemma set_cells_combine i rs s :
  set_cells i rs s = map (fun p => set_nth i (fst p) (snd p)) (combine rs s).
Proof.
  revert s. induction rs as [|r rs IH]; intros [|v s]; try reflexivity.
  cbn [set_cells combine map fst snd]. now rewrite IH.
Qed.

(** The cell just assigned is read back. *)
Lemma cell_setitem_same df c s cats r v :
  length r = length (columns df) ->
  cell (columns (setitem df c s cats))
       (set_nth (if has_column df c then index_of c (columns df)
                 else length (columns df)) r v) c
  = v.
Proof.
  intros Hr. unfold cell, setitem.
  destruct (has_column df c) eqn:E; cbn [columns].
  - apply nth_set_nth_same. pose proof (index_of_lt _ _ E). lia.
  - unfold has_column in E. rewrite (index_of_app_absent _ _ _ E).
    cbn [index_of]. rewrite String.eqb_refl, Nat.add_0_r.
    apply nth_set_nth_same. lia.
Qed.

Lemma set_cells_length i rs s :
  length s = length rs -> length (set_cells i rs s) = length rs.
Proof.
  revert s. induction rs as [|r rs IH]; intros [|v s]; try discriminate;
    [reflexivity|].
  cbn [set_cells length]. intros H. f_equal. apply IH. now injection H.
Qed.

(** Reading back the column assigned by [df[c] = s]. *)
Lemma getitem_setitem_same df c s cats :
  rectangular df = true -> length s = length (rows df) ->
  getitem (setitem df c s cats) c = inr s.
Proof.
  intros Hrect Hlen. rewrite getitem_ok by apply has_column_setitem_same.
  f_equal. rewrite rows_setitem, set_cells_combine, map_map.
  revert s Hlen. unfold rectangular in Hrect.
  induction (rows df) as [|r rs IH]; intros [|v s] Hlen; try discriminate;
    [reflexivity|].
  cbn [forallb] in Hrect. apply andb_true_iff in Hrect as [Hr Hrs].
  apply Nat.eqb_eq in Hr.
  cbn [combine map fst snd]. rewrite (cell_setitem_same df c (v :: s) cats r v Hr).
  f_equal. rewrite <- (IH Hrs s) at 2 by (now injection Hlen).
  apply map_ext. intros p. unfold cell, setitem.
  now destruct (has_column df c).
Qed.

(** Reading another column after [df[c] = s]. *)
Lemma getitem_setitem_other df c s cats c' :
  rectangular df = true -> length s = length (rows df) ->
  has_column df c' = true -> c' <> c ->
  getitem (setitem df c s cats) c' = getitem df c'.
Proof.
  intros Hrect Hlen Hc' Hne.
  rewrite (getitem_ok df c' Hc').
  rewrite getitem_ok by now apply has_column_setitem_other.
  f_equal. rewrite rows_setitem, set_cells_combine, map_map.
  revert s Hlen. unfold rectangular in Hrect.
  induction (rows df) as [|r rs IH]; intros [|v s] Hlen; try discriminate;
    [reflexivity|].
  cbn [forallb] in Hrect. apply andb_true_iff in Hrect as [Hr Hrs].
  apply Nat.eqb_eq in Hr.
  cbn [combine map fst snd].
  rewrite (cell_setitem_other df c (v :: s) cats r v c' Hr Hc' Hne).
  f_equal. rewrite <- (IH Hrs s) by (now injection Hlen).
  apply map_ext. intros p. unfold cell, setitem.
  now destruct (has_column df c).
Qed.

(** The values of column [c'] over the rows of a group of the assigned
    column are those of the rows that carry the group's label. *)
Lemma group_of_assigned df c s cats c' k :
  rectangular df = true -> has_column df c' = true -> c' <> c ->
  map (fun r => float_of (cell (columns (setitem df c s cats)) r c'))
      (rows_with (setitem df c s cats) c k)
  = map (fun r => float_of (cell (columns df) r c')) (labelled (rows df) s k).
Proof.
  intros Hrect Hc' Hne. unfold rows_with, labelled.
  rewrite rows_setitem, set_cells_combine, filter_map_comm, !map_map.
  assert (Hin : forall p, In p (combine (rows df) s) ->
                          length (fst p) = length (columns df)).
  { intros [r v] Hp. apply in_combine_l in Hp. now apply rectangular_In. }
  rewrite (filter_ext_in
             (fun p => value_eqb k
                         (cell (columns (setitem df c s cats))
                               (set_nth (if has_column df c
                                         then index_of c (columns df)
                                         else length (columns df)) (fst p) (snd p)) c))
             (fun p => value_eqb k (snd p))).
  - apply map_ext_in. intros p Hp. apply filter_In in Hp as [Hp _].
    now rewrite (cell_setitem_other df c s cats (fst p) (snd p) c' (Hin p Hp) Hc' Hne).
  - intros p Hp. now rewrite (cell_setitem_same df c s cats (fst p) (snd p) (Hin p Hp)).
Qed.

Lemma labelled_In rs labels k r : In r (labelled rs labels k) -> In r rs.
Proof.
  unfold labelled. intros H. apply in_map_iff in H as ([r' v] & <- & Hp).
  apply filter_In in Hp as [Hp _]. now apply in_combine_l in Hp.
Qed.

Lemma qcut_length c s binned :
  qcut c s 4 = inr binned -> length (fst binned) = length s.
Proof.
  intros H. apply qcut_inr in H as [_ ->]. cbn [fst]. now rewrite !length_map.
Qed.

(** X11. Win rate by size bin (line 117). On well-formed tables whose
    [win] column holds the flags 0 and 1, the series has one entry per
    bin of [size_bin]. The entry of a bin is 100 times the share of
    winning trades among the filtered trades labelled with that bin, a
    number between 0 and 100, and it is NaN for a bin that labels no
    filtered trade. *)
Theorem win_rate_by_size h m t mg tf S C :
  nth_error h m = Some mg -> nth_error h t = Some tf ->
  trade_schema mg = true -> profile_schema tf = true ->
  win_flags mg = true ->
  exists v h',
    dashboard m t S C h = (inr v, h') /\
    length (size_bin v) = length (rows (filtered_merged v)) /\
    forall k x, In (k, x) (size_win v) ->
      let grp := labelled (rows (filtered_merged v)) (size_bin v) k in
      (grp = [] -> x = None) /\
      (grp <> [] ->
       exists q, x = Some q /\ (q == win_share (columns mg) grp)%Q /\
                 (0 <= q <= 100)%Q).
Proof.
  intros Hm Ht Hmg Htf Hfl.
  destruct (dashboard_run h m t mg tf S C Hm Ht Hmg Htf) as (v & new & Hrun & Htr).
  exists v, (h ++ new). split; [exact Hrun|].
  open_trace Htr. subst v. cbn [size_win size_bin filtered_merged].
  unfold trade_schema in Hmg. split_andb.
  set (fm := getitem_mask mg _) in *.
  assert (Hrect : rectangular fm = true) by now apply rectangular_mask.
  assert (Hwin : has_column fm "win" = true).
  { unfold win_flags in Hfl. now apply andb_true_iff in Hfl as [Hw _]. }
  apply getitem_inr in Esize as [_ Esize].
  assert (Hlen : length (fst binned) = length (rows fm)).
  { rewrite (qcut_length _ _ _ Ebinned), Esize. apply length_map. }
  split; [exact Hlen|].
  intros k x Hkx. unfold scale in Hkx.
  apply in_map_iff in Hkx as ([k' x'] & E & Hk). cbn [fst snd] in E.
  injection E as -> <-.
  destruct (groupby_mean_entries _ _ _ _ Eby_size) as [_ Hent].
  rewrite (Hent k x' Hk).
  rewrite (group_of_assigned fm "size_bin" (fst binned) (Some (snd binned)) "win" k
             Hrect Hwin) by discriminate.
  change (columns fm) with (columns mg). cbv zeta.
  set (grp := labelled (rows fm) (fst binned) k).
  split.
  - intros ->. reflexivity.
  - intros Hne.
    assert (Hflags : forallb (win_flag (columns mg)) grp = true).
    { apply forallb_forall. intros r Hr. apply labelled_In in Hr.
      pose proof (win_flags_mask mg (isin cls S) Hfl) as Hfm. fold fm in Hfm.
      unfold win_flags in Hfm. apply andb_true_iff in Hfm as [_ Hfm].
      rewrite forallb_forall in Hfm. now apply Hfm. }
    destruct (mean_flags (columns mg) grp Hflags Hne) as (q & -> & Hq).
    exists (q * 100)%Q. split; [reflexivity|]. unfold win_share.
    split; [now rewrite Hq|]. rewrite Hq. apply ratio_bounds.
    + apply filter_length_le.
    + destruct grp; [congruence|discriminate].
Qed.

Lemma win_rate_by_size_witness :
  exists v h',
    dashboard 0 1 [Str "Fear"; Str "Greed"] [Num 0] [ex_merged; ex_profiles]
    = (inr v, h') /\
    length (size_bin v) = 4 /\ length (size_win v) = 4.
Proof.
  destruct (win_rate_by_size [ex_merged; ex_profiles] 0 1 ex_merged ex_profiles
              [Str "Fear"; Str "Greed"] [Num 0] eq_refl eq_refl eq_refl eq_refl eq_refl)
    as (v & h' & Hrun & Hlen & _).
  exists v, h'. split; [exact Hrun|].
  vm_compute in Hrun. injection Hrun as Hv Hh. subst v. split; reflexivity.
Defined.

(** X12. The assignment of line 116. After a run on well-formed tables
    the filtered trade table held by the script (the first table it
    built) has a column [size_bin] that reads back as the series of bins,
    one label per filtered trade; every other column of the joined table
    reads as it did before the assignment, and the table keeps its rows.
    The table shown at line 75 was taken before the assignment. *)
Theorem size_bin_column_assigned h m t mg tf S C :
  nth_error h m = Some mg -> nth_error h t = Some tf ->
  trade_schema mg = true -> profile_schema tf = true ->
  exists v new fm',
    dashboard m t S C h = (inr v, h ++ new) /\
    nth_error new 0 = Some fm' /\
    getitem fm' "size_bin" = inr (size_bin v) /\
    length (rows fm') = total_trades v /\
    columns (filtered_merged v) = columns mg /\
    (forall c, has_column mg c = true -> c <> "size_bin" ->
               getitem fm' c = getitem (filtered_merged v) c).
Proof.
  intros Hm Ht Hmg Htf.
  destruct (dashboard_run h m t mg tf S C Hm Ht Hmg Htf) as (v & new & Hrun & Htr).
  open_trace Htr.
  set (fm := getitem_mask mg (isin cls S)) in *.
  exists v, new, (setitem fm "size_bin" (fst binned) (Some (snd binned))).
  split; [exact Hrun|]. split; [now rewrite Enew|].
  subst v. cbn [size_bin total_trades filtered_merged].
  unfold trade_schema in Hmg. split_andb.
  assert (Hrect : rectangular fm = true) by now apply rectangular_mask.
  apply getitem_inr in Esize as [_ Esize].
  assert (Hlen : length (fst binned) = length (rows fm)).
  { rewrite (qcut_length _ _ _ Ebinned), Esize. apply length_map. }
  split; [now apply getitem_setitem_same|].
  split; [rewrite rows_setitem; now apply set_cells_length|].
  split; [reflexivity|].
  intros c Hc Hne. now apply getitem_setitem_other.
Qed.

Lemma size_bin_column_assigned_witness :
  exists v new fm',
    dashboard 0 1 [Str "Fear"; Str "Greed"] [Num 0] [ex_merged; ex_profiles]
    = (inr v, [ex_merged; ex_profiles] ++ new) /\
    nth_error new 0 = Some fm' /\
    getitem fm' "size_bin" = inr (size_bin v) /\
    getitem fm' "win" = getitem (filtered_merged v) "win".
Proof.
  destruct (size_bin_column_assigned [ex_merged; ex_profiles] 0 1 ex_merged ex_profiles
              [Str "Fear"; Str "Greed"] [Num 0] eq_refl eq_refl eq_refl eq_refl)
    as (v & new & fm' & Hrun & Hnew & Hbin & _ & _ & Hother).
  exists v, new, fm'. split; [exact Hrun|]. split; [exact Hnew|].
  split; [exact Hbin|]. apply Hother; [reflexivity|discriminate].
Defined.

(** ** The shape of the size bins *)




(** ** The KPIs add up across sentiments *)







(** ** The cluster summary *)




(** ** The shape of the heatmap *)

(** X16. The shape of the heatmap (lines 168-170). On well-formed tables
    whose [win] column holds the flags 0 and 1, the row labels and the
    column labels of the heatmap are each in increasing order and without
    repetition, the grid has one line per row label and one cell per column
    label on every line. The labels are those of the trades that carry
    both a cluster and a sentiment: such a trade has its cluster among the
    row labels and its sentiment among the column labels, and every label
    comes from such a trade. *)
Theorem heatmap_shape h m t mg tf S C :
  nth_error h m = Some mg -> nth_error h t = Some tf ->
  trade_schema mg = true -> profile_schema tf = true ->
  win_flags mg = true ->
  exists v h',
    dashboard m t S C h = (inr v, h') /\
    let heat := heatmap_data v in
    Sorted (fun a b => value_leb a b = true) (p_index heat) /\
    Sorted (fun a b => value_leb a b = true) (p_columns heat) /\
    (forall c, length (filter (value_eqb c) (p_index heat)) <= 1) /\
    (forall c, length (filter (value_eqb c) (p_columns heat)) <= 1) /\
    length (p_values heat) = length (p_index heat) /\
    (forall line, In line (p_values heat) -> length line = length (p_columns heat)) /\
    (forall r, In r (rows mg) ->
       isna (cell (columns mg) r "cluster") = false ->
       isna (cell (columns mg) r "classification") = false ->
       existsb (value_eqb (cell (columns mg) r "cluster")) (p_index heat) = true /\
       existsb (value_eqb (cell (columns mg) r "classification")) (p_columns heat)
       = true) /\
    (forall a, In a (p_index heat) ->
       exists r, In r (rows mg) /\ cell (columns mg) r "cluster" = a /\
                 isna (cell (columns mg) r "classification") = false) /\
    (forall b, In b (p_columns heat) ->
       exists r, In r (rows mg) /\ cell (columns mg) r "classification" = b /\
                 isna (cell (columns mg) r "cluster") = false).
Proof.
  intros Hm Ht Hmg Htf Hfl.
  destruct (dashboard_run h m t mg tf S C Hm Ht Hmg Htf) as (v & new & Hrun & Htr).
  exists v, (h ++ new). split; [exact Hrun|].
  open_trace Htr. subst v. cbn [heatmap_data]. cbv zeta.
  pose proof (pivot_table_mean_inr _ _ _ _ _ Eheat) as Hheat.
  unfold pivot_times100. cbn [p_index p_columns p_values].
  rewrite Hheat. cbn [p_index p_columns p_values].
  set (prs := pivot_rows mg "cluster" "classification" "win").
  split; [apply sort_by_Sorted; apply value_leb_total|].
  split; [apply sort_by_Sorted; apply value_leb_total|].
  split.
  { intros c. rewrite (filter_length_perm _ _ _ (sort_by_perm value_leb _)).
    apply unique_by_distinct. }
  split.
  { intros c. rewrite (filter_length_perm _ _ _ (sort_by_perm value_leb _)).
    apply unique_by_distinct. }
  split; [now rewrite !length_map|].
  split.
  { intros line Hline. apply in_map_iff in Hline as (l0 & <- & Hl0).
    apply in_map_iff in Hl0 as (a & <- & _). now rewrite !length_map. }
  split.
  { intros r Hr Hc Hs.
    destruct (pivot_labels _ _ _ _ _ (cell (columns mg) r "cluster")
                (cell (columns mg) r "classification") Eheat Hc Hs) as [Ha Hb].
    - assert (Hin : In r (group_rows mg "cluster" "classification"
                            (cell (columns mg) r "cluster")
                            (cell (columns mg) r "classification"))).
      { apply filter_In. split; [exact Hr|]. now rewrite !value_eqb_refl. }
      intros E. rewrite E in Hin. contradiction.
    - unfold group_mean.
      set (G := group_rows mg "cluster" "classification" _ _).
      assert (Hin : In r G).
      { apply filter_In. split; [exact Hr|]. now rewrite !value_eqb_refl. }
      assert (HG : forallb (win_flag (columns mg)) G = true).
      { unfold win_flags in Hfl. apply andb_true_iff in Hfl as [_ Hfl].
        now apply forallb_filter. }
      destruct (mean_flags _ _ HG) as (q & -> & _); [|discriminate].
      intros E. rewrite E in Hin. contradiction.
    - rewrite Hheat in Ha, Hb. cbn [p_index p_columns] in Ha, Hb. now split. }
  split.
  - intros a Ha. apply sorted_unique_In in Ha. apply in_map_iff in Ha as (r & <- & Hr).
    unfold prs, pivot_rows in Hr. apply filter_In in Hr as [Hr Hk].
    apply andb_true_iff in Hk as [Hk _]. apply andb_true_iff in Hk as [_ Hk].
    apply negb_true_iff in Hk. eauto.
  - intros b Hb. apply sorted_unique_In in Hb. apply in_map_iff in Hb as (r & <- & Hr).
    unfold prs, pivot_rows in Hr. apply filter_In in Hr as [Hr Hk].
    apply andb_true_iff in Hk as [Hk _]. apply andb_true_iff in Hk as [Hk _].
    apply negb_true_iff in Hk. eauto.
Qed.

Lemma heatmap_shape_witness :
  exists v h',
    dashboard 0 1 [Str "Fear"] [Num 0] [ex_merged; ex_profiles] = (inr v, h') /\
    p_index (heatmap_data v) = [Num 0; Num 1] /\
    p_columns (heatmap_data v) = [Str "Fear"; Str "Greed"] /\
    length (p_values (heatmap_data v)) = 2.
Proof.
  destruct (heatmap_shape [ex_merged; ex_profiles] 0 1 ex_merged ex_profiles
              [Str "Fear"] [Num 0] eq_refl eq_refl eq_refl eq_refl eq_refl)
    as (v & h' & Hrun & _).
  exists v, h'. split; [exact Hrun|].
  vm_compute in Hrun. injection Hrun as Hv Hh. subst v. repeat split; reflexivity.
Defined.

(** ** The columns shown for the top traders *)

Lemma nth_index_of c cs d :
  existsb (String.eqb c) cs = true -> nth (index_of c cs) cs d = c.
Proof.
  induction cs as [|x cs IH]; [discriminate|].
  cbn [existsb index_of]. destruct (String.eqb c x) eqn:E.
  - intros _. apply String.eqb_eq in E. now subst x.
  - cbn [orb nth]. exact IH.
Qed.

(** Reading a selected column of [df[cs]] gives the cell of [df]. *)
Lemma cell_selected cols r cs c :
  existsb (String.eqb c) cs = true ->
  cell cs (map (cell cols r) cs) c = cell cols r c.
Proof.
  intros Hc. unfold cell at 1.
  rewrite (nth_indep _ NaN (cell cols r "")) by (rewrite length_map; now apply index_of_lt).
  rewrite (map_nth (cell cols r) cs ""). now rewrite nth_index_of.
Qed.

(** X17. The top-traders table as displayed (line 162). On well-formed
    tables the displayed table is a new table with exactly the columns
    [account], [cluster], [total_trades], [win_rate], [total_pnl], in that
    order, and one row per row of the top-traders table, in the same
    order; each of its cells is the cell of the top trader under the same
    label, wherever that column stands in the trader table. *)
Theorem top_traders_shown h m t mg tf S C :
  nth_error h m = Some mg -> nth_error h t = Some tf ->
  trade_schema mg = true -> profile_schema tf = true ->
  exists v new shown,
    dashboard m t S C h = (inr v, h ++ new) /\
    nth_error new 3 = Some shown /\
    columns shown = ["account"; "cluster"; "total_trades"; "win_rate"; "total_pnl"] /\
    length (rows shown) = length (rows (top_traders v)) /\
    Forall2 (fun r r' =>
               length r' = 5 /\
               forall c, In c (columns shown) ->
                         cell (columns shown) r' c = cell (columns tf) r c)
            (rows (top_traders v)) (rows shown).
Proof.
  intros Hm Ht Hmg Htf.
  destruct (dashboard_run h m t mg tf S C Hm Ht Hmg Htf) as (v & new & Hrun & Htr).
  open_trace Htr.
  exists v, new, shown. split; [exact Hrun|]. split; [now rewrite Enew|].
  subst v. cbn [top_traders].
  unfold profile_schema in Htf. split_andb.
  destruct (groupby_apply_nlargest_inr tf top (no_categorical_nil tf ltac:(assumption))
              Etop) as [Hcols _].
  unfold getitem_list in Eshown.
  destruct (first_missing top _); [discriminate|]. injection Eshown as <-.
  cbn [columns rows]. rewrite Hcols.
  split; [reflexivity|]. split; [apply length_map|].
  apply Forall2_map_r. intros r _. split; [reflexivity|].
  intros c Hc.
  apply (cell_selected (columns tf) r
           ["account"; "cluster"; "total_trades"; "win_rate"; "total_pnl"] c).
  apply existsb_exists. exists c. split; [exact Hc|apply String.eqb_refl].
Qed.

Lemma top_traders_shown_witness :
  exists v new shown,
    dashboard 0 1 [Str "Fear"] [Num 0] [ex_merged; ex_profiles]
    = (inr v, [ex_merged; ex_profiles] ++ new) /\
    nth_error new 3 = Some shown /\
    columns shown = ["account"; "cluster"; "total_trades"; "win_rate"; "total_pnl"] /\
    length (rows shown) = length (rows (top_traders v)).
Proof.
  destruct (top_traders_shown [ex_merged; ex_profiles] 0 1 ex_merged ex_profiles
              [Str "Fear"] [Num 0] eq_refl eq_refl eq_refl eq_refl)
    as (v & new & shown & Hrun & Hnew & Hcols & Hlen & _).
  exists v, new, shown. now repeat split.
Defined.
